(** * Balancer arbitrage strategy (balancer_v2.py): model and properties

    The strategy compares a fixed reference rate with the price quoted by
    the gateway, decides a trade direction, submits the trade and polls
    for its confirmation.  This file embeds the script in Rocq:

    - [Dec]: Python's [decimal.Decimal] under the default context
      (28 significant digits, ties to even), restricted to finite numbers
      whose exponents stay inside the context's range;
    - [Flt]: Python's [float] (IEEE binary64) as far as the script uses it:
      conversion from a decimal, exact conversion to a decimal, and the
      exact mixed comparison [Decimal > float];
    - [Py]: the coroutine monad (state, exceptions, gateway replies);
    - [Strategy]: the methods of [ArbitrageBalancer], one definition each;
    - [Loop]: the scheduler (ticks and task runs). *)

From Stdlib Require Import ZArith QArith Qpower Qabs Lia Lqa.
From stdpp Require Import gmap strings list.

Open Scope Z_scope.

(** ** Integer rounding, ties to even *)

Module Round.

(** [half_even n d] is the integer nearest to [n / d] (for [0 < d]), the
    even one on a tie: ROUND_HALF_EVEN of the decimal context and the
    rounding of binary64. *)
Definition half_even (n d : Z) : Z :=
  let q := n / d in
  let r := n mod d in
  if 2 * r <? d then q
  else if d <? 2 * r then q + 1
  else if Z.even q then q else q + 1.

(** The integer [h] is [n / d] rounded to nearest, ties to even. *)
Definition nearest_even (n d h : Z) : Prop :=
  (2 * h - 1) * d <= 2 * n <= (2 * h + 1) * d
  /\ (2 * n = (2 * h + 1) * d -> Z.even h = true)
  /\ (2 * n = (2 * h - 1) * d -> Z.even h = true).

(** Number of decimal digits of [n] (for [0 <= n]); [digits 0 = 1], as
    [len(str(0))] in Python. *)
Fixpoint digits_aux (fuel : nat) (n : Z) : Z :=
  match fuel with
  | O => 1
  | S fuel' => if n <? 10 then 1 else 1 + digits_aux fuel' (n / 10)
  end.

Definition digits (n : Z) : Z :=
  digits_aux (Z.to_nat (Z.log2 (Z.abs n))) (Z.abs n).

End Round.

(** ** Decimal *)

Module Dec.

(** A finite decimal number: [coefficient * 10 ^ exponent].  The sign is
    the sign of the coefficient (the sign of a zero is not kept: it plays
    no part in arithmetic or comparison). *)
Record Decimal : Type := mkDecimal { coefficient : Z; exponent : Z }.

#[export] Instance Decimal_eq_dec : EqDecision Decimal.
Proof. solve_decision. Defined.

(** Context precision of [decimal.getcontext()]. *)
Definition prec : Z := 28.

Definition pow10 (e : Z) : Q := Qpower (10 # 1) e.

Definition value (d : Decimal) : Q :=
  (inject_Z (coefficient d) * pow10 (exponent d))%Q.

Definition of_int (z : Z) : Decimal := mkDecimal z 0.

(** [Decimal._fix]: round to the context precision. *)
Definition fix_ (d : Decimal) : Decimal :=
  let c := coefficient d in
  let n := Round.digits c in
  if n <=? prec then d
  else
    let k := n - prec in
    let c' := Round.half_even c (10 ^ k) in
    if Z.abs c' =? 10 ^ prec
    then mkDecimal (c' / 10) (exponent d + k + 1)
    else mkDecimal c' (exponent d + k).

(** Rounding an integer to [prec] significant digits: what [fix_] does to
    a coefficient once the exponent is factored out. *)
Definition round_sig (C : Z) : Z :=
  let N := Round.digits C in
  if N <=? prec then C
  else Round.half_even C (10 ^ (N - prec)) * 10 ^ (N - prec).

(** The coefficient of [d] at the smaller exponent [s]. *)
Definition scaled (s : Z) (d : Decimal) : Z :=
  coefficient d * 10 ^ (exponent d - s).

Definition neg (a : Decimal) : Decimal :=
  mkDecimal (- coefficient a) (exponent a).

(** Exact sum and product, before rounding. *)
Definition add_exact (a b : Decimal) : Decimal :=
  let e := Z.min (exponent a) (exponent b) in
  mkDecimal (coefficient a * 10 ^ (exponent a - e)
             + coefficient b * 10 ^ (exponent b - e)) e.

Definition mul_exact (a b : Decimal) : Decimal :=
  mkDecimal (coefficient a * coefficient b) (exponent a + exponent b).

Definition add (a b : Decimal) : Decimal := fix_ (add_exact a b).
Definition sub (a b : Decimal) : Decimal := fix_ (add_exact a (neg b)).
Definition mul (a b : Decimal) : Decimal := fix_ (mul_exact a b).

Definition abs (a : Decimal) : Decimal :=
  fix_ (mkDecimal (Z.abs (coefficient a)) (exponent a)).

(** What [Decimal.__truediv__] signals on a zero divisor. *)
Inductive div_error : Type :=
| DivisionByZero      (* x / 0 with x nonzero *)
| DivisionUndefined.  (* 0 / 0, an InvalidOperation *)

(** Strip trailing zeros of an exact quotient, up to the ideal exponent. *)
Fixpoint strip_zeros (fuel : nat) (coeff exp ideal : Z) : Z * Z :=
  match fuel with
  | O => (coeff, exp)
  | S fuel' =>
      if (exp <? ideal) && (coeff mod 10 =? 0)
      then strip_zeros fuel' (coeff / 10) (exp + 1) ideal
      else (coeff, exp)
  end.

(** [Decimal.__truediv__]: the quotient to [prec + 1] digits with a sticky
    last digit, then [_fix]. *)
Definition truediv (a b : Decimal) : div_error + Decimal :=
  let ca := coefficient a in
  let cb := coefficient b in
  if cb =? 0 then
    inl (if ca =? 0 then DivisionUndefined else DivisionByZero)
  else if ca =? 0 then
    inr (fix_ (mkDecimal 0 (exponent a - exponent b)))
  else
    let sign := Z.sgn ca * Z.sgn cb in
    let shift := Round.digits cb - Round.digits ca + prec + 1 in
    let exp := exponent a - exponent b - shift in
    let '(num, den) :=
      if 0 <=? shift then (Z.abs ca * 10 ^ shift, Z.abs cb)
      else (Z.abs ca, Z.abs cb * 10 ^ (- shift)) in
    let coeff := num / den in
    let remainder := num mod den in
    let '(coeff, exp) :=
      if remainder =? 0
      then strip_zeros (Z.to_nat (Round.digits coeff)) coeff exp
                       (exponent a - exponent b)
      else (if coeff mod 5 =? 0 then coeff + 1 else coeff, exp) in
    inr (fix_ (mkDecimal (sign * coeff) exp)).

(** Comparison is by numeric value. *)
Definition leb (a b : Decimal) : bool := Qle_bool (value a) (value b).
Definition ltb (a b : Decimal) : bool := negb (Qle_bool (value b) (value a)).
Definition gtb (a b : Decimal) : bool := ltb b a.

End Dec.

(** ** float (IEEE binary64) *)

Module Flt.

(** A float is finite, [mantissa * 2 ^ binexp], or an infinity.  (The
    script never produces a NaN: its only float comes from [float(d)] on a
    finite decimal.) *)
Inductive PyFloat : Type :=
| Finite (mantissa binexp : Z)
| Inf (negative : bool).

Definition pow2 (e : Z) : Q := Qpower (2 # 1) e.

(** [floor (log2 (num / den))] for positive [num], [den]. *)
Definition ilog2_ratio (num den : Z) : Z :=
  let l := Z.log2 num - Z.log2 den in
  let above :=
    if 0 <=? l then den * 2 ^ l <=? num else den <=? num * 2 ^ (- l) in
  if above then l else l - 1.

(** Nearest binary64 to [num / den] (positive), ties to even: 53-bit
    mantissa, exponents down to -1074 (subnormals), infinity from 2^1024. *)
Definition round_binary64 (negative : bool) (num den : Z) : PyFloat :=
  if num =? 0 then Finite 0 0
  else
    let e := Z.max (ilog2_ratio num den - 52) (-1074) in
    let m :=
      if 0 <=? e then Round.half_even num (den * 2 ^ e)
      else Round.half_even (num * 2 ^ (- e)) den in
    if 2 ^ 1024 <=? m * 2 ^ Z.max e 0 then Inf negative
    else Finite (if negative then - m else m) e.

(** [Decimal.__float__]: the correctly rounded float of a decimal. *)
Definition of_decimal (d : Dec.Decimal) : PyFloat :=
  let c := Dec.coefficient d in
  let e := Dec.exponent d in
  if 0 <=? e then round_binary64 (c <? 0) (Z.abs c * 10 ^ e) 1
  else round_binary64 (c <? 0) (Z.abs c) (10 ^ (- e)).

(** Halve an even mantissa while the exponent is negative (the reduced
    fraction of [float.as_integer_ratio]). *)
Fixpoint reduce (m : positive) (e : Z) : positive * Z :=
  match m with
  | xO m' => if e <? 0 then reduce m' (e + 1) else (m, e)
  | _ => (m, e)
  end.

(** [Decimal.from_float], which [Decimal(x)] applies to a float [x]: the
    exact decimal expansion.  Infinities have no finite decimal. *)
Definition to_decimal (x : PyFloat) : option Dec.Decimal :=
  match x with
  | Finite 0 _ => Some (Dec.mkDecimal 0 0)
  | Finite (Zpos m) e =>
      let '(m', e') := reduce m e in
      Some (if 0 <=? e' then Dec.mkDecimal (Zpos m' * 2 ^ e') 0
            else Dec.mkDecimal (Zpos m' * 5 ^ (- e')) e')
  | Finite (Zneg m) e =>
      let '(m', e') := reduce m e in
      Some (if 0 <=? e' then Dec.mkDecimal (- (Zpos m' * 2 ^ e')) 0
            else Dec.mkDecimal (- (Zpos m' * 5 ^ (- e'))) e')
  | Inf _ => None
  end.

(** The order between a rational and the (extended real) value of a
    float. *)
Definition at_most (q : Q) (x : PyFloat) : Prop :=
  match x with
  | Finite m e => (q <= inject_Z m * pow2 e)%Q
  | Inf negative => negative = false
  end.

Definition above (q : Q) (x : PyFloat) : Prop :=
  match x with
  | Finite m e => (inject_Z m * pow2 e < q)%Q
  | Inf negative => negative = true
  end.

(** Python compares a [Decimal] with a [float] exactly, by value. *)
Definition dec_gt (d : Dec.Decimal) (x : PyFloat) : bool :=
  match x with
  | Finite m e =>
      negb (Qle_bool (Dec.value d) (inject_Z m * pow2 e)%Q)
  | Inf negative => negative
  end.

End Flt.

(** ** Coroutines over the gateway *)

Module Py.

Import Dec.

(** [hummingbot.core.data_type.common.TradeType], the two sides in use. *)
Inductive TradeType : Type := BUY | SELL.

#[export] Instance TradeType_eq_dec : EqDecision TradeType.
Proof. solve_decision. Defined.

(** A JSON value of a gateway response.  [JNumeral d] is a string that
    spells the finite decimal [d] (the gateway sends prices so); [JStr s]
    is a string that spells no number: a hash, an address, a message.
    Strings that spell a special value of [decimal] (Infinity, NaN, sNaN)
    have no place in this type, as [Dec] has only the finite numbers. *)
Inductive jval : Type :=
| JNull
| JInt (z : Z)
| JNumeral (d : Decimal)
| JStr (s : string).

#[export] Instance jval_eq_dec : EqDecision jval.
Proof. solve_decision. Defined.

(** The exceptions (all subclasses of [Exception]) that can arise. *)
Inductive exn : Type :=
| KeyError (key : string)
| TypeError
| ValueError
| ConversionSyntax                  (* Decimal("not a number") *)
| DecimalDivision (why : div_error) (* Decimal / zero *)
| GatewayError (msg : string).      (* raised by the HTTP client *)

(** [TradeParams]: the dataclass; [address] defaults to [None]. *)
Record TradeParams : Type := mkTradeParams {
  chain : string;
  network : string;
  connector : string;
  base : string;
  quote : string;
  address : option string
}.

Definition with_address (p : TradeParams) (a : option string) : TradeParams :=
  mkTradeParams (chain p) (network p) (connector p) (base p) (quote p) a.

(** Calls on [GatewayHttpClient.get_instance()]. *)
Inductive request : Type :=
| get_price (chain network connector base quote : string)
            (amount : Decimal) (side : TradeType)
| amm_trade (chain network connector : string) (address : option string)
            (base quote : string) (side : TradeType)
            (amount price : Decimal)
| get_transaction_status (chain network : string) (tx_hash : jval)
| get_balances (chain network : string) (address : option string)
               (tokens : list string).

(** What an awaited gateway call resolves to. *)
Inductive reply : Type :=
| Returns (data : gmap string jval)
| Raises (msg : string).

(** Everything a run does to the outside, in order. *)
Inductive effect : Type :=
| Request (r : request)
| Sleep (seconds : Z)
| Info (msg : string)
| Error (msg : string) (e : exn)
| Notify (msg : string).

(** The strategy object: class attributes and instance fields.
    [task_cooldown] is read by [poll_transaction] and assigned nowhere in
    the script; it is taken as given. *)
Record ArbitrageBalancer : Type := mkArbitrageBalancer {
  connector_chain_network : string;
  trading_pair : string;
  order_amount : Decimal;
  slippage_buffer : Decimal;
  minimum_profitability : Decimal;
  task_cooldown : Z;
  on_going_task : bool;
  api_price : Decimal;
  dex_price : Decimal
}.

(** The strategy together with its surroundings: the wallet settings
    file, the gateway replies still to arrive (in order), the effects so
    far (oldest first) and the number of tasks handed to the event loop
    that have not run yet. *)
Record World : Type := mkWorld {
  self : ArbitrageBalancer;
  gateway_connections_conf : list (gmap string string);
  replies : list reply;
  effects : list effect;
  scheduled : nat
}.

Definition set_self (f : ArbitrageBalancer -> ArbitrageBalancer) (w : World) : World :=
  mkWorld (f (self w)) (gateway_connections_conf w) (replies w) (effects w)
          (scheduled w).

Definition set_on_going_task (b : bool) (s : ArbitrageBalancer) : ArbitrageBalancer :=
  mkArbitrageBalancer (connector_chain_network s) (trading_pair s)
    (order_amount s) (slippage_buffer s) (minimum_profitability s)
    (task_cooldown s) b (api_price s) (dex_price s).

Definition set_api_price (d : Decimal) (s : ArbitrageBalancer) : ArbitrageBalancer :=
  mkArbitrageBalancer (connector_chain_network s) (trading_pair s)
    (order_amount s) (slippage_buffer s) (minimum_profitability s)
    (task_cooldown s) (on_going_task s) d (dex_price s).

Definition set_dex_price (d : Decimal) (s : ArbitrageBalancer) : ArbitrageBalancer :=
  mkArbitrageBalancer (connector_chain_network s) (trading_pair s)
    (order_amount s) (slippage_buffer s) (minimum_profitability s)
    (task_cooldown s) (on_going_task s) (api_price s) d.

(** How a coroutine leaves: with a value, with an exception, or suspended
    at an [await] whose reply has not arrived. *)
Inductive outcome (A : Type) : Type :=
| Done (a : A)
| Raised (e : exn)
| Blocked.
Arguments Done {A} a.
Arguments Raised {A} e.
Arguments Blocked {A}.

Definition Coro (A : Type) : Type := World -> outcome A * World.

#[export] Instance Coro_ret : MRet Coro := fun A a w => (Done a, w).

#[export] Instance Coro_bind : MBind Coro := fun A B k m w =>
  match m w with
  | (Done a, w') => k a w'
  | (Raised e, w') => (Raised e, w')
  | (Blocked, w') => (Blocked, w')
  end.

Definition raise {A : Type} (e : exn) : Coro A := fun w => (Raised e, w).

(** [try: body  except Exception as e: handler e]. *)
Definition try_except {A : Type} (body : Coro A) (handler : exn -> Coro A) : Coro A :=
  fun w =>
    match body w with
    | (Raised e, w') => handler e w'
    | r => r
    end.

Definition suspended {A : Type} : Coro A := fun w => (Blocked, w).

Definition get_world : Coro World := fun w => (Done w, w).

Definition get_self : Coro ArbitrageBalancer := fun w => (Done (self w), w).

Definition update_self (f : ArbitrageBalancer -> ArbitrageBalancer) : Coro unit :=
  fun w => (Done tt, set_self f w).

Definition emit (e : effect) : Coro unit := fun w =>
  (Done tt,
   mkWorld (self w) (gateway_connections_conf w) (replies w)
           (effects w ++ [e]) (scheduled w)).

Definition info (msg : string) : Coro unit := emit (Info msg).
Definition error (msg : string) (e : exn) : Coro unit := emit (Error msg e).
Definition notify (msg : string) : Coro unit := emit (Notify msg).

(** [await] of a gateway call: the request goes out, the next reply comes
    back; the coroutine stays suspended when there is none. *)
Definition await (r : request) : Coro (gmap string jval) := fun w =>
  let out := effects w ++ [Request r] in
  match replies w with
  | [] =>
      (Blocked,
       mkWorld (self w) (gateway_connections_conf w) [] out (scheduled w))
  | Returns data :: rest =>
      (Done data,
       mkWorld (self w) (gateway_connections_conf w) rest out (scheduled w))
  | Raises msg :: rest =>
      (Raised (GatewayError msg),
       mkWorld (self w) (gateway_connections_conf w) rest out (scheduled w))
  end.

(** [await asyncio.sleep(seconds)]. *)
Definition sleep (seconds : Z) : Coro unit := emit (Sleep seconds).

(** [safe_ensure_future(coro)]: the task is created and left to the event
    loop; the caller goes on at once. *)
Definition safe_ensure_future : Coro unit := fun w =>
  (Done tt,
   mkWorld (self w) (gateway_connections_conf w) (replies w) (effects w)
           (S (scheduled w))).

(** [d[key]] on a dict. *)
Definition getitem {V : Type} (d : gmap string V) (key : string) : Coro V :=
  match d !! key with
  | Some v => mret v
  | None => raise (KeyError key)
  end.

(** [Decimal(v)] on a JSON value.  The [ConversionSyntax] of the string
    case is that of a string that spells no number and no special value;
    where a property below is about a quote that fails it is stated with
    [quote_failure], which leaves the strings out. *)
Definition to_Decimal (v : jval) : Coro Decimal :=
  match v with
  | JInt z => mret (of_int z)
  | JNumeral d => mret d
  | JStr _ => raise ConversionSyntax
  | JNull => raise TypeError
  end.

(** [s.split(sep)] for a one-character separator. *)
Fixpoint split_aux (sep : Ascii.ascii) (s : string) (cur : string) : list string :=
  match s with
  | EmptyString => [String.rev cur]
  | String c s' =>
      if Ascii.eqb c sep then String.rev cur :: split_aux sep s' EmptyString
      else split_aux sep s' (String c cur)
  end.

Definition split (sep : Ascii.ascii) (s : string) : list string :=
  split_aux sep s EmptyString.

(** [triple I P E Q m]: started where the strategy object satisfies [I],
    the coroutine [m] keeps [I], only adds effects that satisfy [P], raises
    only exceptions in [E] and returns only values in [Q]. *)
Definition triple {A : Type} (I : ArbitrageBalancer -> Prop)
    (P : effect -> Prop) (E : exn -> Prop) (Q : A -> Prop) (m : Coro A) : Prop :=
  forall w, I (self w) ->
    I (self (m w).2) /\
    (exists delta, effects (m w).2 = effects w ++ delta /\ Forall P delta) /\
    match (m w).1 with
    | Done a => Q a
    | Raised e => E e
    | Blocked => True
    end.

End Py.

(** ** The strategy: [ArbitrageBalancer] *)

Module Strategy.

Import Dec Py.

(** The numeral written in [update_api_price], read as a decimal. *)
Definition api_price_literal : Decimal :=
  mkDecimal 29470706118118590121419309206649 (-35).

(** [Decimal(0.00029470706118118590121419309206649)]: the numeral is a
    float literal, so the decimal is built from the nearest binary64. *)
Definition api_price_constant : option Decimal :=
  Flt.to_decimal (Flt.of_decimal api_price_literal).

Definition update_api_price : Coro unit :=
  match api_price_constant with
  | Some d => update_self (set_api_price d)
  | None => raise ValueError
  end ;;
  info "Updated API Price (Fixed Rate)".

(** [on_tick]: executes every tick. *)
Definition on_tick : Coro unit :=
  s ← get_self;
  if negb (on_going_task s) then
    update_api_price ;;
    update_self (set_on_going_task true) ;;
    safe_ensure_future ;;
    update_self (set_on_going_task false)
  else mret tt.

Definition fetch_dex_price (params : TradeParams) : Coro Decimal :=
  s ← get_self;
  price_data ← await (get_price (chain params) (network params)
                        (connector params) (base params) (quote params)
                        (order_amount s) BUY);
  price ← getitem price_data "price";
  to_Decimal price.

(** [(self.dex_price - self.api_price) / self.api_price]. *)
Definition deviation_of (s : ArbitrageBalancer) : div_error + Decimal :=
  truediv (sub (dex_price s) (api_price s)) (api_price s).

(** The right operand of the profitability test:
    [float(self.minimum_profitability)]. *)
Definition threshold_of (s : ArbitrageBalancer) : Flt.PyFloat :=
  Flt.of_decimal (minimum_profitability s).

Definition calculate_trade_direction : Coro (option TradeType) :=
  s ← get_self;
  match deviation_of s with
  | inl why => raise (DecimalDivision why)
  | inr deviation =>
      info "Price Deviation" ;;
      if Flt.dec_gt (abs deviation) (threshold_of s) then
        info "Deviation ensures minimum profitibilitty..." ;;
        if gtb deviation (of_int 0) then
          info "Deviation is positive, executing BUY WETH-DAI order." ;;
          mret (Some SELL)
        else
          info "Deviation is negative, executing SELL WETH-DAI order." ;;
          mret (Some BUY)
      else
        info "No profitable arbitrage opportunity found." ;;
        mret None
  end.

(** The list comprehension of [get_wallet_address]; a missing key raises
    only when the conjunction gets to it. *)
Fixpoint matching_wallets (chain network connector : string)
    (conf : list (gmap string string)) : Coro (list (gmap string string)) :=
  match conf with
  | [] => mret []
  | w :: conf' =>
      c ← getitem w "chain";
      keep ←
        (if decide (c = chain) then
           k ← getitem w "connector";
           if decide (k = connector) then
             n ← getitem w "network";
             mret (bool_decide (n = network))
           else mret false
         else mret false);
      rest ← matching_wallets chain network connector conf';
      mret (if keep : bool then w :: rest else rest)
  end.

Definition get_wallet_address (chain network connector : string)
  : Coro (option string) :=
  w ← get_world;
  let conf := gateway_connections_conf w in
  if (length conf <? 1)%nat then
    notify "No existing wallet." ;;
    mret None
  else
    wallet ← matching_wallets chain network connector conf;
    match wallet with
    | [] =>
        notify "No wallet found." ;;
        mret None
    | w0 :: _ =>
        a ← getitem w0 "wallet_address";
        mret (Some a)
    end.

Definition get_balance (params : TradeParams) : Coro unit :=
  info "Fetching balances" ;;
  balance_data ← await (get_balances (chain params) (network params)
                          (address params) [base params; quote params]);
  _ ← getitem balance_data "balances";
  info "Balances".

(** [tx_status == z] and [tx_status in [-1, 0, 2]] on the value that
    [poll_data.get("txStatus")] gives ([None] when the key is missing). *)
Definition status_is (tx_status : option jval) (z : Z) : bool :=
  match tx_status with
  | Some (JInt z') => z' =? z
  | _ => false
  end.

Definition status_pending (tx_status : option jval) : bool :=
  status_is tx_status (-1) || status_is tx_status 0 || status_is tx_status 2.

(** One turn of the [while pending] loop; the result is the new value of
    [pending]. *)
Definition poll_once (chain network : string) (tx_hash : jval) : Coro bool :=
  info "Polling transaction status" ;;
  try_except
    (poll_data ← await (get_transaction_status chain network tx_hash);
     let tx_status := poll_data !! "txStatus" in
     if status_is tx_status 1 then
       info "Trade has been executed successfully." ;;
       mret false
     else if status_pending tx_status then
       info "Trade is pending confirmation" ;;
       s ← get_self;
       sleep (task_cooldown s) ;;
       mret true
     else
       info "Unknown txStatus" ;;
       info "poll_data" ;;
       mret false)
    (fun e =>
       error "Error polling transaction" e ;;
       mret false).

Fixpoint poll_loop (turns : nat) (chain network : string) (tx_hash : jval)
  : Coro unit :=
  match turns with
  | O => suspended
  | S turns' =>
      pending ← poll_once chain network tx_hash;
      if pending : bool then poll_loop turns' chain network tx_hash
      else mret tt
  end.

(** [poll_transaction].  Every turn that leaves [pending] set has used up
    one reply, so the replies still to come bound the number of turns. *)
Definition poll_transaction (chain network : string) (tx_hash : jval)
  : Coro unit :=
  info "Starting poll_transaction..." ;;
  w ← get_world;
  poll_loop (S (length (replies w))) chain network tx_hash.

(** The [try] block of [execute_trade]. *)
Definition execute_trade_body (params : TradeParams) (trade_type : TradeType)
    (limit_price : Decimal) : Coro unit :=
  s ← get_self;
  trade_data ← await (amm_trade (chain params) (network params)
                        (connector params) (address params)
                        (base params) (quote params) trade_type
                        (order_amount s) limit_price);
  tx_hash ← getitem trade_data "txHash";
  info "Trade submitted." ;;
  poll_transaction (chain params) (network params) tx_hash ;;
  get_balance params ;;
  info "Trade execution completed.".

Definition execute_trade (params : TradeParams) (trade_type : TradeType)
    (limit_price : Decimal) : Coro unit :=
  info "Executing trade" ;;
  try_except
    (execute_trade_body params trade_type limit_price)
    (fun e => error "Error executing trade" e).

(** The limit price of [determine_and_execute_trade]. *)
Definition limit_price_of (trade_type : TradeType) (dex_price slippage_buffer : Decimal)
  : Decimal :=
  if decide (trade_type = BUY)
  then mul dex_price (add (of_int 1) slippage_buffer)
  else mul dex_price (sub (of_int 1) slippage_buffer).

(** [not params.address]. *)
Definition falsy (a : option string) : bool :=
  match a with
  | None => true
  | Some a => bool_decide (a = "")
  end.

(** [determine_and_execute_trade] mutates [params]; its final state is
    the result. *)
Definition determine_and_execute_trade (params : TradeParams)
  : Coro TradeParams :=
  trade_type ← calculate_trade_direction;
  match trade_type with
  | Some trade_type =>
      info "Profitable trade detected" ;;
      a ← get_wallet_address (chain params) (network params) (connector params);
      let params := with_address params a in
      if falsy (address params) then mret params
      else
        get_balance params ;;
        s ← get_self;
        let limit_price :=
          limit_price_of trade_type (dex_price s) (slippage_buffer s) in
        execute_trade params trade_type limit_price ;;
        mret params
  | None => mret params
  end.

(** Lines 123 to 132 of [determine_and_execute_trade]: what it does once
    the balance request before the trade has been answered.  The venue
    price is read from the strategy object here, and the trade goes out
    before anything else is awaited. *)
Definition submit_at_limit_price (params : TradeParams)
    (trade_type : TradeType) : Coro TradeParams :=
  s ← get_self;
  let limit_price :=
    limit_price_of trade_type (dex_price s) (slippage_buffer s) in
  execute_trade params trade_type limit_price ;;
  mret params.

Definition unpack2 (l : list string) : Coro (string * string) :=
  match l with
  | [a; b] => mret (a, b)
  | _ => raise ValueError
  end.

Definition unpack3 (l : list string) : Coro (string * string * string) :=
  match l with
  | [a; b; c] => mret (a, b, c)
  | _ => raise ValueError
  end.

(** The [try] block of [arbitrage_task]. *)
Definition arbitrage_task_body : Coro unit :=
  s ← get_self;
  '(base, quote) ← unpack2 (split (Ascii.ascii_of_nat 45) (trading_pair s));
  '(connector, chain, network) ←
     unpack3 (split (Ascii.ascii_of_nat 95) (connector_chain_network s));
  let params := mkTradeParams chain network connector base quote None in
  price ← fetch_dex_price params;
  update_self (set_dex_price price) ;;
  info "DEX Price" ;;
  _ ← determine_and_execute_trade params;
  info "determine_and_execute_trade completed....".

Definition arbitrage_task : Coro unit :=
  try_except arbitrage_task_body
             (fun e => error "Error in arbitrage_task" e).

(** [arbitrage_task] from the moment the quote [price] has arrived: the
    rest of its [try] block, under its [except].  Up to the balance
    request it waits for nothing (the wallet lookup reads the settings and
    suspends nowhere), so no other task runs between the store of the
    quote and the decision. *)
Definition arbitrage_task_resumed (params : TradeParams) (price : Decimal)
  : Coro unit :=
  try_except
    (update_self (set_dex_price price) ;;
     info "DEX Price" ;;
     _ ← determine_and_execute_trade params;
     info "determine_and_execute_trade completed....")
    (fun e => error "Error in arbitrage_task" e).

(** The object after [__init__], with the class attributes as written.
    [__init__] stores the int 0 in both price fields; an int enters a
    Decimal operation as the Decimal of the same value, so it is written
    [of_int 0].  Python tells the two apart only in an operation on two
    ints, and the pipeline has none: [arbitrage_task] stores a Decimal in
    [dex_price] before anything is subtracted or divided. *)
Definition new (task_cooldown : Z) : ArbitrageBalancer :=
  {| connector_chain_network := "balancer_ethereum_mainnet";
     trading_pair := "WETH-DAI";
     order_amount := mkDecimal 1 0;
     slippage_buffer := mkDecimal 1 (-2);
     minimum_profitability := mkDecimal 5 (-4);
     task_cooldown := task_cooldown;
     on_going_task := false;
     api_price := of_int 0;
     dex_price := of_int 0 |}.

(** *** Vocabulary of the properties *)

(** The decision that [calculate_trade_direction] takes on a computed
    deviation. *)
Definition direction_of (s : ArbitrageBalancer) (deviation : Decimal)
  : option TradeType :=
  if Flt.dec_gt (abs deviation) (threshold_of s)
  then if gtb deviation (of_int 0) then Some SELL else Some BUY
  else None.

(** The task changes one field of the strategy object, [dex_price]. *)
Definition same_but_dex_price (s0 s : ArbitrageBalancer) : Prop :=
  exists d, s = set_dex_price d s0.

(** A reply that keeps the poller polling. *)
Definition reply_pending (r : reply) : bool :=
  match r with
  | Returns data => status_pending (data !! "txStatus")
  | Raises _ => false
  end.

(** What one turn of the polling loop does to the outside on a pending
    reply, and on a reply that ends the loop. *)
Definition pending_turn (chain network : string) (tx_hash : jval)
    (cooldown : Z) : list effect :=
  [Info "Polling transaction status";
   Request (get_transaction_status chain network tx_hash);
   Info "Trade is pending confirmation";
   Sleep cooldown].

Definition last_turn (chain network : string) (tx_hash : jval) (r : reply)
  : list effect :=
  [Info "Polling transaction status";
   Request (get_transaction_status chain network tx_hash)] ++
  match r with
  | Returns data =>
      if status_is (data !! "txStatus") 1
      then [Info "Trade has been executed successfully."]
      else [Info "Unknown txStatus"; Info "poll_data"]
  | Raises msg => [Error "Error polling transaction" (GatewayError msg)]
  end.

Definition polling_effects (chain network : string) (tx_hash : jval)
    (cooldown : Z) (pendings : list reply) (final : reply) : list effect :=
  concat (map (fun _ => pending_turn chain network tx_hash cooldown) pendings)
  ++ last_turn chain network tx_hash final.

(** Status queries among some effects. *)
Definition is_status_query (e : effect) : bool :=
  match e with
  | Request (get_transaction_status _ _ _) => true
  | _ => false
  end.

Definition is_sleep (e : effect) : bool :=
  match e with
  | Sleep _ => true
  | _ => false
  end.

(** Sample worlds: the strategy as constructed (cooldown 2) awaiting the
    given replies, and a reply that carries a status code. *)
Definition world_with_replies (rs : list reply) : World :=
  mkWorld (new 2) [] rs [] O.

Definition status_reply (z : Z) : reply := Returns {["txStatus" := JInt z]}.

(** The reference rate that [update_api_price] stores. *)
Definition api_price_value : Decimal :=
  mkDecimal 2947070611811858863691993004607638795278035104274749755859375 (-64).

(** A quote request for the order amount of [s], on the BUY side. *)
Definition quotes_buy_side (s : ArbitrageBalancer) (e : effect) : Prop :=
  match e with
  | Request (get_price _ _ _ _ _ amount side) =>
      side = BUY /\ amount = order_amount s
  | _ => True
  end.

(** Trade submissions among some effects. *)
Definition is_submission (e : effect) : bool :=
  match e with
  | Request (amm_trade _ _ _ _ _ _ _ _ _) => true
  | _ => false
  end.

(** A submission goes out only with a non-empty wallet address and on the
    side that the strategy [s] decides. *)
Definition submission_allowed (s : ArbitrageBalancer) (e : effect) : Prop :=
  match e with
  | Request (amm_trade _ _ _ a _ _ side _ _) =>
      falsy a = false /\
      exists deviation,
        deviation_of s = inr deviation /\ direction_of s deviation = Some side
  | _ => True
  end.

Definition no_submission (e : effect) : Prop := is_submission e = false.

(** An effect other than the log of a division by zero. *)
Definition no_division_error (e : effect) : Prop :=
  forall msg why, e <> Error msg (DecimalDivision why).

(** Quote requests among some effects. *)
Definition is_quote_request (e : effect) : bool :=
  match e with
  | Request (get_price _ _ _ _ _ _ _) => true
  | _ => false
  end.

(** A reply to a quote request. *)
Definition price_reply (d : Decimal) : reply := Returns {["price" := JNumeral d]}.

(** The test of the list comprehension in [get_wallet_address]. *)
Definition wallet_matches (chain network connector : string)
    (w : gmap string string) : bool :=
  bool_decide (w !! "chain" = Some chain)
  && bool_decide (w !! "connector" = Some connector)
  && bool_decide (w !! "network" = Some network).

(** A wallet entry on which that test raises no [KeyError]: it has the
    key "chain", the key "connector" if the chain is the one looked for,
    and the key "network" if the connector is too. *)
Definition wallet_readable (chain connector : string)
    (w : gmap string string) : Prop :=
  is_Some (w !! "chain") /\
  (w !! "chain" = Some chain ->
   is_Some (w !! "connector") /\
   (w !! "connector" = Some connector -> is_Some (w !! "network"))).

(** A wallet entry of the settings file. *)
Definition wallet_entry (chain connector network address : string)
  : gmap string string :=
  <["chain" := chain]> (<["connector" := connector]>
    (<["network" := network]> {["wallet_address" := address]})).

(** The world after a notification. *)
Definition notified (msg : string) (w : World) : World :=
  mkWorld (self w) (gateway_connections_conf w) (replies w)
          (effects w ++ [Notify msg]) (scheduled w).

(** What [fetch_dex_price] makes of the gateway's reply to its request. *)
Definition quote_of (r : reply) : exn + Decimal :=
  match r with
  | Raises msg => inl (GatewayError msg)
  | Returns data =>
      match data !! "price" with
      | None => inl (KeyError "price")
      | Some (JInt z) => inr (of_int z)
      | Some (JNumeral d) => inr d
      | Some (JStr _) => inl ConversionSyntax
      | Some JNull => inl TypeError
      end
  end.

(** How often the character [c] occurs in [s]. *)
Fixpoint occurrences (c : Ascii.ascii) (s : string) : nat :=
  match s with
  | EmptyString => O
  | String c' s' => ((if Ascii.eqb c' c then 1 else 0) + occurrences c s')%nat
  end.

(** The world after one gateway call: the request is out, the first
    waiting reply is used up. *)
Definition requested (r : request) (rest : list reply) (w : World) : World :=
  mkWorld (self w) (gateway_connections_conf w) rest
          (effects w ++ [Request r]) (scheduled w).

(** The world after an error was logged. *)
Definition logged_error (msg : string) (e : exn) (w : World) : World :=
  mkWorld (self w) (gateway_connections_conf w) (replies w)
          (effects w ++ [Error msg e]) (scheduled w).

(** The quote request of a strategy whose two configuration strings
    split into these names. *)
Definition quote_request (s : ArbitrageBalancer)
    (base quote connector chain network : string) : request :=
  get_price chain network connector base quote (order_amount s) BUY.

(** The quotes that fail whatever the price is worth: the gateway call
    raises, the reply has no "price", or the price is null. *)
Definition quote_failure (r : reply) : option exn :=
  match r with
  | Raises msg => Some (GatewayError msg)
  | Returns data =>
      match data !! "price" with
      | None => Some (KeyError "price")
      | Some JNull => Some TypeError
      | Some _ => None
      end
  end.

(** The world in which the quote [d] has been stored and logged. *)
Definition quote_stored (d : Decimal) (w : World) : World :=
  mkWorld (set_dex_price d (self w)) (gateway_connections_conf w) (replies w)
          (effects w ++ [Info "DEX Price"]) (scheduled w).

(** What is left of the task once the quote has arrived. *)
Definition after_quote (params : TradeParams) : Coro unit :=
  try_except
    (_ ← determine_and_execute_trade params;
     info "determine_and_execute_trade completed....")
    (fun e => error "Error in arbitrage_task" e).

(** What the polling loop has done to the outside when every reply so far
    was a pending one: a full turn per reply, and the query of the turn it
    is in. *)
Definition polling_so_far (chain network : string) (tx_hash : jval)
    (cooldown : Z) (pendings : list reply) : list effect :=
  concat (map (fun _ => pending_turn chain network tx_hash cooldown) pendings)
  ++ [Info "Polling transaction status";
      Request (get_transaction_status chain network tx_hash)].

(** What [execute_trade] makes of the gateway's reply to the submission:
    the transaction hash, or the exception of the call or of the lookup of
    "txHash". *)
Definition tx_hash_of (r : reply) : exn + jval :=
  match r with
  | Raises msg => inl (GatewayError msg)
  | Returns data =>
      match data !! "txHash" with
      | Some tx_hash => inr tx_hash
      | None => inl (KeyError "txHash")
      end
  end.

(** What [get_balance] makes of the reply to its request. *)
Definition balances_of (r : reply) : exn + jval :=
  match r with
  | Raises msg => inl (GatewayError msg)
  | Returns data =>
      match data !! "balances" with
      | Some balances => inr balances
      | None => inl (KeyError "balances")
      end
  end.

(** The requests of [get_balance] and [execute_trade]. *)
Definition balance_request (params : TradeParams) : request :=
  get_balances (chain params) (network params) (address params)
               [base params; quote params].

Definition trade_request (s : ArbitrageBalancer) (params : TradeParams)
    (trade_type : TradeType) (limit_price : Decimal) : request :=
  amm_trade (chain params) (network params) (connector params)
            (address params) (base params) (quote params) trade_type
            (order_amount s) limit_price.

(** What [get_balance] does to the outside on the reply [r]. *)
Definition balance_effects (params : TradeParams) (r : reply) : list effect :=
  [Info "Fetching balances"; Request (balance_request params)] ++
  match balances_of r with
  | inr _ => [Info "Balances"]
  | inl _ => []
  end.

(** The world after some replies were used up and some effects added. *)
Definition advanced (rest : list reply) (delta : list effect) (w : World)
  : World :=
  mkWorld (self w) (gateway_connections_conf w) rest (effects w ++ delta)
          (scheduled w).


(** The trade submissions among some effects, and a coroutine that from
    any world adds at most [n] of them. *)
Definition submissions (l : list effect) : nat :=
  length (filter is_submission l).

Definition submits_at_most (n : nat) {A : Type} (m : Coro A) : Prop :=
  forall w, exists delta,
    effects (m w).2 = effects w ++ delta /\ (submissions delta <= n)%nat.

(** A submitted trade is the one that the strategy [s] decides for these
    names: on the configured venue and pair, for the configured amount,
    from a non-empty wallet address, on the side its prices call for. *)
Definition trade_decided_by (s : ArbitrageBalancer)
    (base quote connector chain network : string) (e : effect) : Prop :=
  match e with
  | Request (amm_trade c n k a b q side amount price) =>
      (c = chain /\ n = network /\ k = connector /\ b = base /\ q = quote) /\
      amount = order_amount s /\
      falsy a = false /\
      exists deviation,
        deviation_of s = inr deviation /\ direction_of s deviation = Some side
  | _ => True
  end.

(** A strategy object with the given prices and threshold, otherwise as
    constructed; and a world around a strategy object with nothing
    configured, nothing sent and no reply to come. *)
Definition strategy_with (api dex threshold : Decimal) : ArbitrageBalancer :=
  set_dex_price dex
    (set_api_price api
       (mkArbitrageBalancer "balancer_ethereum_mainnet" "WETH-DAI"
          (mkDecimal 1 0) (mkDecimal 1 (-2)) threshold 2 false
          (of_int 0) (of_int 0))).

Definition world_of (s : ArbitrageBalancer) : World := mkWorld s [] [] [] O.

End Strategy.

(** ** The scheduler *)

Module Loop.

Import Dec Py Strategy.

(** What the clock and the event loop can do next: tick the strategy, or
    run the oldest task that [safe_ensure_future] created.  A task runs in
    one step, to its end or to an await whose reply has not arrived: there
    is no step in which a task waits at an await while ticks and other
    tasks go on.  So the runs of this module serve for what holds between
    any two events whatever the tasks did (the guard, the oracle price,
    the count of trades); what a task does when it comes back from an
    await to a strategy object that others have written is stated on the
    code after that await, from any world ([submit_at_limit_price],
    [arbitrage_task_resumed]). *)
Inductive event : Type := Tick | RunTask.

Definition step (w : World) (ev : event) : World :=
  match ev with
  | Tick => snd (on_tick w)
  | RunTask =>
      match scheduled w with
      | O => w
      | S n =>
          snd (arbitrage_task
                 (mkWorld (self w) (gateway_connections_conf w) (replies w)
                          (effects w) n))
      end
  end.

Definition run (w : World) (evs : list event) : World := fold_left step evs w.

Definition boot (task_cooldown : Z) (conf : list (gmap string string))
    (rs : list reply) : World :=
  mkWorld (Strategy.new task_cooldown) conf rs [] O.

(** What the scheduler keeps true: once a task can run the oracle price
    is the constant of [update_api_price], and no division by zero has
    been logged. *)
Definition oracle_ready (w : World) : Prop :=
  (api_price (self w) = api_price_value \/ scheduled w = O) /\
  Forall no_division_error (effects w).

(** The task runs among some events. *)
Fixpoint task_runs (evs : list event) : nat :=
  match evs with
  | [] => O
  | Tick :: evs' => task_runs evs'
  | RunTask :: evs' => S (task_runs evs')
  end.

End Loop.

(** * Properties *)

(** ** Rounding *)

Module RoundFacts.
Import Round.

Lemma half_even_nearest n d : 0 < d -> nearest_even n d (half_even n d).
Proof.
  intros Hd. unfold nearest_even, half_even.
  pose proof (Z.div_mod n d ltac:(lia)) as Hn.
  pose proof (Z.mod_pos_bound n d Hd) as Hr.
  set (q := n / d) in *. set (r := n mod d) in *.
  destruct (Z.ltb_spec (2 * r) d) as [H1|H1].
  - split; [nia|]. split; intros; nia.
  - destruct (Z.ltb_spec d (2 * r)) as [H2|H2].
    + split; [nia|]. split; intros; nia.
    + assert (d = 2 * r) by lia.
      destruct (Z.even q) eqn:Hq.
      * split; [nia|]. split; intros; [assumption | nia].
      * split; [nia|]. split; intros; [nia |].
        rewrite Z.even_add, Hq. reflexivity.
Qed.

Lemma nearest_even_mono n1 d1 h1 n2 d2 h2 :
  0 < d1 -> 0 < d2 ->
  nearest_even n1 d1 h1 -> nearest_even n2 d2 h2 ->
  n1 * d2 <= n2 * d1 -> h1 <= h2.
Proof.
  intros Hd1 Hd2 (B1 & _ & E1) (B2 & E2 & _) Hle.
  destruct (Z_le_gt_dec h1 h2) as [|Hgt]; [assumption | exfalso].
  assert (Hdd : 0 < d1 * d2) by nia.
  assert (L1 : (2 * h1 - 1) * (d1 * d2) <= 2 * n1 * d2) by nia.
  assert (L2 : 2 * n2 * d1 <= (2 * h2 + 1) * (d1 * d2)) by nia.
  assert (L3 : (2 * h2 + 1) * (d1 * d2) <= (2 * h1 - 1) * (d1 * d2)) by nia.
  assert (Heq : 2 * h2 + 1 = 2 * h1 - 1) by nia.
  assert (T1 : 2 * n1 = (2 * h1 - 1) * d1) by nia.
  assert (T2 : 2 * n2 = (2 * h2 + 1) * d2) by nia.
  specialize (E1 T1). specialize (E2 T2).
  replace h1 with (h2 + 1) in E1 by lia.
  rewrite Z.even_add, E2 in E1. discriminate.
Qed.

Lemma half_even_mono n1 d1 n2 d2 :
  0 < d1 -> 0 < d2 -> n1 * d2 <= n2 * d1 ->
  half_even n1 d1 <= half_even n2 d2.
Proof.
  intros. eapply (nearest_even_mono n1 d1 _ n2 d2); eauto using half_even_nearest.
Qed.

Lemma nearest_even_unique n d h :
  0 < d -> nearest_even n d h -> half_even n d = h.
Proof.
  intros Hd Hh. pose proof (half_even_nearest n d Hd) as Hs.
  apply Z.le_antisymm.
  - eapply (nearest_even_mono n d _ n d); eauto. lia.
  - eapply (nearest_even_mono n d _ n d); eauto. lia.
Qed.

Lemma half_even_scale n d m :
  0 < d -> 0 < m -> half_even (n * m) (d * m) = half_even n d.
Proof.
  intros Hd Hm. apply Z.le_antisymm; apply half_even_mono; nia.
Qed.

Lemma half_even_exact k d : 0 < d -> half_even (k * d) d = k.
Proof.
  intros Hd. apply nearest_even_unique; [assumption|].
  split; [nia|]. split; intros; nia.
Qed.

Lemma half_even_opp n d : 0 < d -> half_even (- n) d = - half_even n d.
Proof.
  intros Hd. apply nearest_even_unique; [assumption|].
  destruct (half_even_nearest n d Hd) as (B & E1 & E2).
  split; [nia|]. rewrite Z.even_opp. split; intros; [apply E2 | apply E1]; nia.
Qed.

Lemma half_even_nonneg n d : 0 < d -> 0 <= n -> 0 <= half_even n d.
Proof.
  intros Hd Hn. rewrite <- (half_even_exact 0 d Hd).
  apply half_even_mono; nia.
Qed.

(** [digits] counts decimal digits. *)
Lemma digits_aux_spec fuel : forall n,
  0 < n -> n < 2 ^ (Z.of_nat fuel + 1) ->
  1 <= digits_aux fuel n /\
  10 ^ (digits_aux fuel n - 1) <= n < 10 ^ digits_aux fuel n.
Proof.
  induction fuel as [|fuel IH]; intros n Hpos Hlt.
  - simpl in *. change (2 ^ 1) with 2 in Hlt. assert (n = 1) by lia. subst.
    simpl. lia.
  - cbn [digits_aux]. destruct (Z.ltb_spec n 10) as [H10|H10].
    + change (10 ^ (1 - 1)) with 1. change (10 ^ 1) with 10. lia.
    + assert (Hq : 0 < n / 10) by (apply Z.div_str_pos; lia).
      assert (Hq2 : n / 10 < 2 ^ (Z.of_nat fuel + 1)).
      { apply Z.div_lt_upper_bound; [lia|].
        replace (Z.of_nat (S fuel) + 1) with (Z.succ (Z.of_nat fuel + 1)) in Hlt by lia.
        rewrite Z.pow_succ_r in Hlt by lia.
        assert (0 < 2 ^ (Z.of_nat fuel + 1)) by (apply Z.pow_pos_nonneg; lia).
        lia. }
      destruct (IH _ Hq Hq2) as (Hk & Hlo & Hhi).
      set (k := digits_aux fuel (n / 10)) in *.
      pose proof (Z.div_mod n 10 ltac:(lia)) as Hn.
      pose proof (Z.mod_pos_bound n 10 ltac:(lia)) as Hr.
      replace (1 + k - 1) with (Z.succ (k - 1)) by lia.
      replace (1 + k) with (Z.succ k) by lia.
      rewrite !Z.pow_succ_r by lia.
      lia.
Qed.

Lemma digits_spec n :
  0 < n -> 1 <= digits n /\ 10 ^ (digits n - 1) <= n < 10 ^ digits n.
Proof.
  intros Hn. unfold digits. rewrite (Z.abs_eq n) by lia.
  apply digits_aux_spec; [assumption|].
  rewrite Z2Nat.id by apply Z.log2_nonneg.
  destruct (Z.log2_spec n Hn) as [_ H]. replace (Z.log2 n + 1) with (Z.succ (Z.log2 n)) by lia.
  exact H.
Qed.

Lemma digits_abs n : digits (Z.abs n) = digits n.
Proof. unfold digits. now rewrite Z.abs_idemp. Qed.

Lemma digits_opp n : digits (- n) = digits n.
Proof. unfold digits. now rewrite Z.abs_opp. Qed.

Lemma digits_zero : digits 0 = 1.
Proof. reflexivity. Qed.

Lemma pow10_pos k : 0 <= k -> 0 < 10 ^ k.
Proof. intros. apply Z.pow_pos_nonneg; lia. Qed.

Lemma digits_unique n k :
  10 ^ (k - 1) <= n < 10 ^ k -> 1 <= k -> digits n = k.
Proof.
  intros [Hlo Hhi] Hk.
  assert (Hn : 0 < n) by (pose proof (pow10_pos (k - 1)); lia).
  destruct (digits_spec n Hn) as (Hd & Hlo' & Hhi').
  assert (A : digits n - 1 < k).
  { apply (Z.pow_lt_mono_r_iff 10); lia. }
  assert (B : k - 1 < digits n).
  { apply (Z.pow_lt_mono_r_iff 10); lia. }
  lia.
Qed.

Lemma digits_le_mono a b : 0 < a -> a <= b -> digits a <= digits b.
Proof.
  intros Ha Hab.
  destruct (digits_spec a Ha) as (Hda & Hlo & _).
  destruct (digits_spec b ltac:(lia)) as (Hdb & _ & Hhi).
  assert (digits a - 1 < digits b); [|lia].
  apply (Z.pow_lt_mono_r_iff 10); lia.
Qed.

Lemma digits_shift c j : 0 < c -> 0 <= j -> digits (c * 10 ^ j) = digits c + j.
Proof.
  intros Hc Hj. destruct (digits_spec c Hc) as (Hd & Hlo & Hhi).
  pose proof (pow10_pos j Hj).
  apply digits_unique; [|lia].
  replace (digits c + j - 1) with ((digits c - 1) + j) by lia.
  rewrite !Z.pow_add_r by lia. nia.
Qed.

End RoundFacts.

(** ** Decimal arithmetic *)

Module DecFacts.
Import Round RoundFacts Dec.

Lemma round_sig_opp C : round_sig (- C) = - round_sig C.
Proof.
  unfold round_sig. rewrite digits_opp.
  destruct (Z.leb_spec (digits C) prec); [reflexivity|].
  rewrite half_even_opp by (apply pow10_pos; lia). lia.
Qed.

Lemma round_sig_bounds C :
  0 < C -> 10 ^ (digits C - 1) <= round_sig C <= 10 ^ digits C.
Proof.
  intros HC. destruct (digits_spec C HC) as (Hd & Hlo & Hhi).
  unfold round_sig. destruct (Z.leb_spec (digits C) prec) as [|Hbig]; [lia|].
  set (k := digits C - prec) in *.
  assert (Hk : 0 < 10 ^ k) by (apply pow10_pos; lia).
  assert (E1 : 10 ^ (digits C - 1) = 10 ^ (prec - 1) * 10 ^ k).
  { rewrite <- Z.pow_add_r by (unfold prec; lia). f_equal. lia. }
  assert (E2 : 10 ^ digits C = 10 ^ prec * 10 ^ k).
  { rewrite <- Z.pow_add_r by (unfold prec; lia). f_equal. lia. }
  rewrite E1, E2.
  split; apply Z.mul_le_mono_nonneg_r; try lia.
  - rewrite <- (half_even_exact (10 ^ (prec - 1)) (10 ^ k) Hk).
    apply half_even_mono; nia.
  - rewrite <- (half_even_exact (10 ^ prec) (10 ^ k) Hk).
    apply half_even_mono; nia.
Qed.

Lemma round_sig_mono_pos C1 C2 :
  0 < C1 -> C1 <= C2 -> round_sig C1 <= round_sig C2.
Proof.
  intros H1 H12.
  pose proof (digits_le_mono C1 C2 H1 H12) as HN.
  destruct (Z_le_lt_eq_dec _ _ HN) as [Hlt|Heq].
  - pose proof (round_sig_bounds C1 H1) as [_ A].
    pose proof (round_sig_bounds C2 ltac:(lia)) as [B _].
    assert (10 ^ digits C1 <= 10 ^ (digits C2 - 1)).
    { apply Z.pow_le_mono_r; lia. }
    lia.
  - unfold round_sig. rewrite <- Heq.
    destruct (Z.leb_spec (digits C1) prec); [assumption|].
    assert (Hk : 0 < 10 ^ (digits C1 - prec)) by (apply pow10_pos; lia).
    apply Z.mul_le_mono_nonneg_r; [lia|].
    apply half_even_mono; nia.
Qed.

Lemma round_sig_zero : round_sig 0 = 0.
Proof. reflexivity. Qed.

Lemma round_sig_nonneg C : 0 <= C -> 0 <= round_sig C.
Proof.
  intros HC. destruct (Z.eq_dec C 0) as [->|]; [rewrite round_sig_zero; lia|].
  pose proof (round_sig_bounds C ltac:(lia)) as [A _].
  pose proof (digits_spec C ltac:(lia)) as (Hd & _).
  pose proof (pow10_pos (digits C - 1) ltac:(lia)). lia.
Qed.

Lemma round_sig_mono C1 C2 : C1 <= C2 -> round_sig C1 <= round_sig C2.
Proof.
  intros H.
  destruct (Z_lt_le_dec 0 C1) as [P1|N1].
  - now apply round_sig_mono_pos.
  - destruct (Z_le_gt_dec 0 C2) as [P2|N2].
    + pose proof (round_sig_nonneg C2 P2).
      pose proof (round_sig_nonneg (- C1) ltac:(lia)) as A.
      rewrite round_sig_opp in A. lia.
    + pose proof (round_sig_mono_pos (- C2) (- C1) ltac:(lia) ltac:(lia)) as A.
      rewrite !round_sig_opp in A. lia.
Qed.

Lemma fix_exponent_le d : exponent d <= exponent (fix_ d).
Proof.
  unfold fix_. destruct (Z.leb_spec (digits (coefficient d)) prec); [lia|].
  destruct (Z.eqb_spec (Z.abs (half_even (coefficient d)
              (10 ^ (digits (coefficient d) - prec)))) (10 ^ prec)); simpl; lia.
Qed.

Lemma round_sig_multiple c j :
  c <> 0 -> 0 <= j -> digits c <= prec -> round_sig (c * 10 ^ j) = c * 10 ^ j.
Proof.
  intros Hc Hj Hn.
  assert (P : forall c, 0 < c -> digits c <= prec ->
              round_sig (c * 10 ^ j) = c * 10 ^ j).
  { clear c Hc Hn. intros c Hc Hn. unfold round_sig.
    rewrite digits_shift by lia.
    destruct (Z.leb_spec (digits c + j) prec) as [|Hbig]; [reflexivity|].
    set (k := digits c + j - prec).
    assert (Hk : 0 < 10 ^ k) by (apply pow10_pos; lia).
    assert (E : c * 10 ^ j = (c * 10 ^ (j - k)) * 10 ^ k).
    { rewrite <- Z.mul_assoc, <- Z.pow_add_r by lia. do 2 f_equal. lia. }
    rewrite E at 1. rewrite half_even_exact by assumption. lia. }
  destruct (Z_lt_le_dec 0 c) as [Pc|Nc]; [now apply P|].
  replace (c * 10 ^ j) with (- ((- c) * 10 ^ j)) by lia.
  rewrite round_sig_opp. f_equal. apply P; [lia|]. now rewrite digits_opp.
Qed.

Lemma round_sig_shift c j :
  c <> 0 -> 0 <= j -> prec < digits c ->
  round_sig (c * 10 ^ j) =
  half_even c (10 ^ (digits c - prec)) * 10 ^ (digits c - prec + j).
Proof.
  intros Hc Hj Hn.
  assert (P : forall c, 0 < c -> prec < digits c ->
              round_sig (c * 10 ^ j) =
              half_even c (10 ^ (digits c - prec)) * 10 ^ (digits c - prec + j)).
  { clear c Hc Hn. intros c Hc Hn. unfold round_sig.
    rewrite digits_shift by lia.
    destruct (Z.leb_spec (digits c + j) prec) as [|Hbig]; [lia|].
    replace (digits c + j - prec) with (digits c - prec + j) by lia.
    rewrite (Z.pow_add_r 10 (digits c - prec) j) at 1 by lia.
    rewrite half_even_scale by (apply pow10_pos; lia). reflexivity. }
  destruct (Z_lt_le_dec 0 c) as [Pc|Nc]; [now apply P|].
  replace (c * 10 ^ j) with (- ((- c) * 10 ^ j)) by lia.
  rewrite round_sig_opp, P by (rewrite ?digits_opp; lia).
  rewrite digits_opp, half_even_opp by (apply pow10_pos; lia). lia.
Qed.

Lemma scaled_fix s d :
  s <= exponent d -> scaled s (fix_ d) = round_sig (scaled s d).
Proof.
  intros Hs. destruct d as [c e]. unfold scaled, fix_. simpl in *.
  destruct (Z.eq_dec c 0) as [->|Hc]; [reflexivity|].
  destruct (Z.leb_spec (digits c) prec) as [Hsmall|Hbig]; simpl.
  - rewrite round_sig_multiple; trivial; lia.
  - rewrite round_sig_shift by lia.
    set (k := digits c - prec). set (c' := half_even c (10 ^ k)).
    destruct (Z.eqb_spec (Z.abs c') (10 ^ prec)) as [Habs|Habs]; simpl.
    + replace (e + k + 1 - s) with (Z.succ (k + (e - s))) by lia.
      rewrite Z.pow_succ_r by lia.
      assert (c' = (c' / 10) * 10).
      { assert (Hdiv : (10 | c')).
        { apply Z.divide_abs_r. rewrite Habs. exists (10 ^ (prec - 1)).
          reflexivity. }
        destruct Hdiv as [x ->]. rewrite Z.div_mul; lia. }
      lia.
    + f_equal. f_equal. lia.
Qed.

Lemma pow10_Q_pos e : (0 < pow10 e)%Q.
Proof. apply Qpower_0_lt. reflexivity. Qed.

Lemma pow10_Q_add a b : (pow10 (a + b) == pow10 a * pow10 b)%Q.
Proof. apply Qpower_plus. discriminate. Qed.

Lemma pow10_Q_nonneg j : 0 <= j -> (pow10 j == inject_Z (10 ^ j))%Q.
Proof. intros. unfold pow10. now rewrite Zpower_Qpower. Qed.

Lemma value_scaled s d :
  s <= exponent d -> (value d == inject_Z (scaled s d) * pow10 s)%Q.
Proof.
  intros Hs. unfold value, scaled.
  replace (exponent d) with ((exponent d - s) + s) at 1 by lia.
  rewrite pow10_Q_add, pow10_Q_nonneg, inject_Z_mult by lia.
  ring.
Qed.

Lemma value_le_scaled s a b :
  s <= exponent a -> s <= exponent b ->
  (value a <= value b)%Q <-> scaled s a <= scaled s b.
Proof.
  intros Ha Hb. rewrite (value_scaled s a Ha), (value_scaled s b Hb).
  pose proof (pow10_Q_pos s) as Hp.
  rewrite Zle_Qle. split; intros H.
  - apply Qmult_le_r in H; assumption.
  - apply Qmult_le_r; assumption.
Qed.

(** Rounding to the context precision is monotone. *)
Lemma fix_mono a b :
  (value a <= value b)%Q -> (value (fix_ a) <= value (fix_ b))%Q.
Proof.
  intros H. set (s := Z.min (exponent a) (exponent b)).
  pose proof (fix_exponent_le a). pose proof (fix_exponent_le b).
  apply (value_le_scaled s) in H; [|lia|lia].
  apply (value_le_scaled s); [lia|lia|].
  rewrite !scaled_fix by lia. now apply round_sig_mono.
Qed.

Lemma value_neg a : (value (neg a) == - value a)%Q.
Proof. unfold value, neg. simpl. rewrite inject_Z_opp. ring. Qed.

Lemma value_add_exact a b : (value (add_exact a b) == value a + value b)%Q.
Proof.
  set (s := Z.min (exponent a) (exponent b)).
  rewrite (value_scaled s a), (value_scaled s b) by lia.
  unfold value, add_exact, scaled. simpl. fold s.
  rewrite inject_Z_plus. ring.
Qed.

Lemma value_mul_exact a b : (value (mul_exact a b) == value a * value b)%Q.
Proof.
  unfold value, mul_exact. simpl. rewrite inject_Z_mult, pow10_Q_add. ring.
Qed.

Lemma value_of_int z : (value (of_int z) == inject_Z z)%Q.
Proof. unfold value, of_int, pow10. simpl. ring. Qed.




End DecFacts.

(** ** Reasoning about coroutines *)

Module Hoare.
Import Dec Py.

Section Rules.
Context (I : ArbitrageBalancer -> Prop) (P : effect -> Prop) (E : exn -> Prop).

Lemma triple_ret {A} (Q : A -> Prop) (a : A) : Q a -> triple I P E Q (mret a).
Proof.
  intros Ha w Hw. cbn. split; [assumption|]. split; [|assumption].
  exists []. rewrite app_nil_r. auto.
Qed.

Lemma triple_raise {A} (Q : A -> Prop) (e : exn) : E e -> triple I P E Q (raise e).
Proof.
  intros He w Hw. cbn. split; [assumption|]. split; [|assumption].
  exists []. rewrite app_nil_r. auto.
Qed.

Lemma triple_suspended {A} (Q : A -> Prop) : triple I P E Q suspended.
Proof.
  intros w Hw. cbn. split; [assumption|]. split; [|exact Logic.I].
  exists []. rewrite app_nil_r. auto.
Qed.

Lemma triple_bind {A B} (Q : A -> Prop) (Q' : B -> Prop)
    (m : Coro A) (k : A -> Coro B) :
  triple I P E Q m -> (forall a, Q a -> triple I P E Q' (k a)) ->
  triple I P E Q' (m ≫= k).
Proof.
  intros Hm Hk w Hw. destruct (Hm w Hw) as (HI & (d1 & Hd1 & HP1) & Hr).
  unfold mbind, Coro_bind. destruct (m w) as [[a|e|] w1]; cbn in *.
  - destruct (Hk a Hr w1 HI) as (HI2 & (d2 & Hd2 & HP2) & Hr2).
    split; [assumption|]. split; [|assumption].
    exists (d1 ++ d2). rewrite Hd2, Hd1, app_assoc. split; [reflexivity|].
    apply Forall_app; auto.
  - split; [assumption|]. split; [|assumption]. eauto.
  - split; [assumption|]. split; [|exact Logic.I]. eauto.
Qed.

Lemma triple_try {A} (E0 : exn -> Prop) (Q : A -> Prop)
    (body : Coro A) (handler : exn -> Coro A) :
  triple I P E0 Q body -> (forall e, E0 e -> triple I P E Q (handler e)) ->
  triple I P E Q (try_except body handler).
Proof.
  intros Hm Hk w Hw. destruct (Hm w Hw) as (HI & (d1 & Hd1 & HP1) & Hr).
  unfold try_except. destruct (body w) as [[a|e|] w1]; cbn in *.
  - split; [assumption|]. split; [|assumption]. eauto.
  - destruct (Hk e Hr w1 HI) as (HI2 & (d2 & Hd2 & HP2) & Hr2).
    split; [assumption|]. split; [|assumption].
    exists (d1 ++ d2). rewrite Hd2, Hd1, app_assoc. split; [reflexivity|].
    apply Forall_app; auto.
  - split; [assumption|]. split; [|exact Logic.I]. eauto.
Qed.

Lemma triple_emit (Q : unit -> Prop) (e : effect) :
  P e -> Q tt -> triple I P E Q (emit e).
Proof.
  intros He Hq w Hw. cbn. split; [assumption|]. split; [|assumption].
  exists [e]. auto.
Qed.

Lemma triple_await (Q : gmap string jval -> Prop) (r : request) :
  P (Request r) -> (forall msg, E (GatewayError msg)) -> (forall d, Q d) ->
  triple I P E Q (await r).
Proof.
  intros He Hg Hq w Hw. unfold await.
  destruct (replies w) as [|[data|msg] rest]; cbn.
  all: split; [assumption|]; split; [exists [Request r]; auto|]; auto.
Qed.

Lemma triple_get_self : triple I P E I get_self.
Proof.
  intros w Hw. cbn. split; [assumption|]. split; [|assumption].
  exists []. rewrite app_nil_r. auto.
Qed.

Lemma triple_get_world : triple I P E (fun w => I (self w)) get_world.
Proof.
  intros w Hw. cbn. split; [assumption|]. split; [|assumption].
  exists []. rewrite app_nil_r. auto.
Qed.

Lemma triple_update_self (Q : unit -> Prop) f :
  (forall s, I s -> I (f s)) -> Q tt -> triple I P E Q (update_self f).
Proof.
  intros Hf Hq w Hw. cbn. split; [auto|]. split; [|assumption].
  exists []. rewrite app_nil_r. auto.
Qed.

Lemma triple_safe_ensure_future (Q : unit -> Prop) :
  Q tt -> triple I P E Q safe_ensure_future.
Proof.
  intros Hq w Hw. cbn. split; [assumption|]. split; [|assumption].
  exists []. rewrite app_nil_r. auto.
Qed.

Lemma triple_post {A} (Q Q' : A -> Prop) (m : Coro A) :
  triple I P E Q m -> (forall a, Q a -> Q' a) -> triple I P E Q' m.
Proof.
  intros Hm HQ w Hw. destruct (Hm w Hw) as (HI & Hd & Hr).
  split; [assumption|]. split; [assumption|].
  destruct (m w).1; auto.
Qed.

Lemma triple_getitem {V} (Q : V -> Prop) (d : gmap string V) key :
  (forall v, d !! key = Some v -> Q v) -> E (KeyError key) ->
  triple I P E Q (getitem d key).
Proof.
  intros Hq He. unfold getitem. destruct (d !! key) as [v|].
  - apply triple_ret. auto.
  - apply triple_raise. assumption.
Qed.
End Rules.

Lemma triple_weaken {A} (I : ArbitrageBalancer -> Prop)
    (P P' : effect -> Prop) (E E' : exn -> Prop) (Q Q' : A -> Prop) (m : Coro A) :
  triple I P E Q m ->
  (forall e, P e -> P' e) -> (forall e, E e -> E' e) -> (forall a, Q a -> Q' a) ->
  triple I P' E' Q' m.
Proof.
  intros Hm HP HE HQ w Hw. destruct (Hm w Hw) as (HI & (d & Hd & HPd) & Hr).
  split; [assumption|]. split.
  - exists d. split; [assumption|]. eapply Forall_impl; eauto.
  - destruct (m w).1; auto.
Qed.

End Hoare.
(** ** Bounds and order of decimals and floats *)

Module DecBounds.
Import Round RoundFacts Dec DecFacts.

Lemma digits_le_prec n : 0 <= n -> n < 10 ^ prec -> digits n <= prec.
Proof.
  intros Hn Hlt. destruct (Z.eq_dec n 0) as [->|]; [rewrite digits_zero; unfold prec; lia|].
  assert (Hpos : 0 < n) by lia.
  destruct (digits_spec n Hpos) as (Hd & Hlo & _).
  assert (digits n - 1 < prec); [|lia].
  apply (Z.pow_lt_mono_r_iff 10); unfold prec in *; lia.
Qed.

Lemma fix_digits d : digits (coefficient (fix_ d)) <= prec.
Proof.
  unfold fix_. destruct (Z.leb_spec (digits (coefficient d)) prec) as [|Hbig]; [assumption|].
  set (c := coefficient d) in *. set (k := digits c - prec).
  set (c' := half_even c (10 ^ k)).
  assert (Hk : 0 < 10 ^ k) by (apply pow10_pos; lia).
  assert (Habs : Z.abs c' <= 10 ^ prec).
  { assert (P : forall x, 0 < x -> digits x = digits c ->
                half_even x (10 ^ k) <= 10 ^ prec).
    { intros x Hx Hdx. destruct (digits_spec x Hx) as (_ & _ & Hhi).
      rewrite <- (half_even_exact (10 ^ prec) (10 ^ k) Hk).
      apply half_even_mono; try lia.
      rewrite <- Z.pow_add_r by (unfold prec; lia).
      replace (prec + k) with (digits x) by lia. nia. }
    destruct (Z_lt_le_dec 0 c) as [Pc|Nc].
    - rewrite Z.abs_eq; [apply P; auto|]. apply half_even_nonneg; lia.
    - assert (c <> 0) by (intros E; unfold c in *; rewrite E, digits_zero in Hbig; unfold prec in Hbig; lia).
      pose proof (P (- c) ltac:(lia) (digits_opp c)) as Q.
      rewrite half_even_opp in Q by assumption.
      pose proof (half_even_nonneg (- c) (10 ^ k) Hk ltac:(lia)) as Q2.
      rewrite half_even_opp in Q2 by assumption. fold c' in Q, Q2. lia. }
  destruct (Z.eqb_spec (Z.abs c') (10 ^ prec)) as [Heq|Hne]; simpl.
  - rewrite <- digits_abs.
    assert (Z.abs (c' / 10) = 10 ^ (prec - 1)) as ->.
    { destruct (Z.abs_spec c') as [[? E]|[? E]]; rewrite E in Heq.
      - rewrite Heq. reflexivity.
      - replace c' with (- 10 ^ prec) by lia. reflexivity. }
    reflexivity.
  - rewrite <- digits_abs. apply digits_le_prec; lia.
Qed.

Lemma fix_small d : digits (coefficient d) <= prec -> fix_ d = d.
Proof.
  intros H. unfold fix_. destruct (Z.leb_spec (digits (coefficient d)) prec); [reflexivity|lia].
Qed.

Lemma truediv_digits a b q : truediv a b = inr q -> digits (coefficient q) <= prec.
Proof.
  unfold truediv. intros H.
  destruct (coefficient b =? 0); [discriminate|].
  destruct (coefficient a =? 0); [injection H as <-; apply fix_digits|].
  repeat match type of H with
         | context [let '(_, _) := ?x in _] => destruct x
         end.
  injection H as <-. apply fix_digits.
Qed.

Lemma truediv_defined a b :
  coefficient b <> 0 -> exists q, truediv a b = inr q.
Proof.
  intros Hb. unfold truediv.
  destruct (Z.eqb_spec (coefficient b) 0); [contradiction|].
  destruct (coefficient a =? 0); [eauto|].
  repeat match goal with
         | |- context [let '(_, _) := ?x in _] => destruct x
         end.
  eauto.
Qed.

Lemma value_abs d :
  digits (coefficient d) <= prec -> (value (abs d) == Qabs (value d))%Q.
Proof.
  intros H. unfold abs. rewrite fix_small by (simpl; now rewrite digits_abs).
  unfold value. cbn [coefficient exponent].
  rewrite Qabs_Qmult, (Qabs_pos (pow10 _)) by apply Qlt_le_weak, pow10_Q_pos.
  apply Qmult_comp; reflexivity.
Qed.

Lemma gtb_zero d : gtb d (of_int 0) = true <-> (0 < value d)%Q.
Proof.
  unfold gtb, ltb. rewrite negb_true_iff, <- not_true_iff_false, Qle_bool_iff.
  rewrite value_of_int. split; intros H.
  - apply Qnot_le_lt. exact H.
  - apply Qlt_not_le. exact H.
Qed.

End DecBounds.

Module FltFacts.
Import Dec Flt.

Lemma dec_gt_above d x : dec_gt d x = true <-> above (value d) x.
Proof.
  destruct x as [m e|[|]]; simpl.
  - rewrite negb_true_iff, <- not_true_iff_false, Qle_bool_iff. split; intros H.
    + apply Qnot_le_lt; exact H.
    + apply Qlt_not_le; exact H.
  - tauto.
  - split; discriminate.
Qed.

Lemma dec_gt_at_most d x : dec_gt d x = false <-> at_most (value d) x.
Proof.
  destruct x as [m e|[|]]; simpl.
  - rewrite negb_false_iff, Qle_bool_iff. tauto.
  - split; discriminate.
  - tauto.
Qed.

End FltFacts.

(** ** The strategy's methods *)

Module StrategyFacts.
Import Round RoundFacts Dec DecFacts DecBounds Flt FltFacts Py Strategy.

(** The value that [calculate_trade_direction] returns, read off its
    branches. *)
Lemma calculate_trade_direction_result w deviation :
  deviation_of (self w) = inr deviation ->
  (calculate_trade_direction w).1 =
  Done (if dec_gt (abs deviation) (threshold_of (self w))
        then if gtb deviation (of_int 0) then Some SELL else Some BUY
        else None).
Proof.
  intros H. unfold calculate_trade_direction, mbind, Coro_bind, get_self.
  rewrite H. cbn.
  destruct (dec_gt _ _); [destruct (gtb _ _)|]; reflexivity.
Qed.

Lemma calculate_trade_direction_raises w why :
  deviation_of (self w) = inl why ->
  (calculate_trade_direction w).1 = Raised (DecimalDivision why).
Proof.
  intros H. unfold calculate_trade_direction, mbind, Coro_bind, get_self.
  rewrite H. reflexivity.
Qed.

Lemma deviation_digits s deviation :
  deviation_of s = inr deviation -> digits (coefficient deviation) <= prec.
Proof. apply truediv_digits. Qed.

End StrategyFacts.

Module MethodFacts.
Import Dec Flt Py Strategy Hoare.

Lemma triple_frame {A} (I : ArbitrageBalancer -> Prop) P E (Q : A -> Prop) m :
  (forall s0, I s0 -> triple (eq s0) P E Q m) -> triple I P E Q m.
Proof.
  intros H w Hw. destruct (H (self w) Hw w eq_refl) as (Hs & Hd & Hr).
  rewrite <- Hs. auto.
Qed.

Section Sequencing.
Context (I : ArbitrageBalancer -> Prop) (P : effect -> Prop) (E : exn -> Prop).
Context {B : Type} (Q : B -> Prop).

Lemma triple_emit_then e (k : unit -> Coro B) :
  P e -> triple I P E Q (k tt) -> triple I P E Q (emit e ≫= k).
Proof.
  intros He Hk. apply (triple_bind I P E (fun _ => True)).
  - now apply triple_emit.
  - now intros [] _.
Qed.

Lemma triple_get_self_then (k : ArbitrageBalancer -> Coro B) :
  (forall s, I s -> triple I P E Q (k s)) -> triple I P E Q (get_self ≫= k).
Proof.
  intros Hk. apply (triple_bind I P E I); [apply triple_get_self | assumption].
Qed.

Lemma triple_get_world_then (k : World -> Coro B) :
  (forall w, I (self w) -> triple I P E Q (k w)) -> triple I P E Q (get_world ≫= k).
Proof.
  intros Hk. apply (triple_bind I P E (fun w => I (self w)));
    [apply triple_get_world | assumption].
Qed.

Lemma triple_await_then r (k : gmap string jval -> Coro B) :
  P (Request r) -> (forall msg, E (GatewayError msg)) ->
  (forall d, triple I P E Q (k d)) -> triple I P E Q (await r ≫= k).
Proof.
  intros Hr Hg Hk. apply (triple_bind I P E (fun _ => True)).
  - now apply triple_await.
  - intros d _. apply Hk.
Qed.

Lemma triple_getitem_then {V} (d : gmap string V) key (k : V -> Coro B) :
  E (KeyError key) -> (forall v, d !! key = Some v -> triple I P E Q (k v)) ->
  triple I P E Q (getitem d key ≫= k).
Proof.
  intros He Hk. apply (triple_bind I P E (fun v => d !! key = Some v)).
  - now apply triple_getitem.
  - assumption.
Qed.

Lemma triple_update_self_then f (k : unit -> Coro B) :
  (forall s, I s -> I (f s)) -> triple I P E Q (k tt) ->
  triple I P E Q (update_self f ≫= k).
Proof.
  intros Hf Hk. apply (triple_bind I P E (fun _ => True)).
  - now apply triple_update_self.
  - now intros [] _.
Qed.

Lemma triple_then {A} (m : Coro A) (k : A -> Coro B) :
  triple I P E (fun _ => True) m -> (forall a, triple I P E Q (k a)) ->
  triple I P E Q (m ≫= k).
Proof.
  intros Hm Hk. apply (triple_bind I P E (fun _ => True)); auto.
Qed.

End Sequencing.

(** The methods that leave the strategy object as it is, [s0]. *)
Section Methods.
Context (s0 : ArbitrageBalancer) (P : effect -> Prop) (E : exn -> Prop).
Hypothesis Hinfo : forall msg, P (Info msg).
Hypothesis Hnotify : forall msg, P (Notify msg).
Hypothesis Hsleep : forall n, P (Sleep n).
Hypothesis Herror : forall msg e, E e -> P (Error msg e).
Hypothesis Hstatus : forall c n h, P (Request (get_transaction_status c n h)).
Hypothesis Hbalances : forall c n a t, P (Request (get_balances c n a t)).
Hypothesis Hexn : forall e, (forall why, e <> DecimalDivision why) -> E e.

Local Ltac other_exn := apply Hexn; discriminate.

Lemma calculate_trade_direction_triple (Q : option TradeType -> Prop) :
  (forall why, deviation_of s0 = inl why -> E (DecimalDivision why)) ->
  (forall deviation, deviation_of s0 = inr deviation ->
                     Q (direction_of s0 deviation)) ->
  triple (eq s0) P E Q calculate_trade_direction.
Proof.
  intros Hdiv HQ. unfold calculate_trade_direction.
  apply triple_get_self_then. intros s <-.
  destruct (deviation_of s0) as [why|deviation] eqn:Hdev.
  - apply triple_raise. now apply Hdiv.
  - specialize (HQ deviation eq_refl). unfold direction_of in HQ.
    apply triple_emit_then; [apply Hinfo|].
    destruct (dec_gt _ _).
    + apply triple_emit_then; [apply Hinfo|].
      destruct (gtb _ _); (apply triple_emit_then; [apply Hinfo|]);
        now apply triple_ret.
    + apply triple_emit_then; [apply Hinfo|]. now apply triple_ret.
Qed.

Lemma matching_wallets_triple chain network connector conf :
  triple (eq s0) P E (fun _ => True)
         (matching_wallets chain network connector conf).
Proof.
  induction conf as [|w conf IH]; cbn [matching_wallets].
  - now apply triple_ret.
  - apply triple_getitem_then; [other_exn|]. intros c _.
    apply triple_then.
    + destruct (decide (c = chain)); [|now apply triple_ret].
      apply triple_getitem_then; [other_exn|]. intros k _.
      destruct (decide (k = connector)); [|now apply triple_ret].
      apply triple_getitem_then; [other_exn|]. intros n _.
      now apply triple_ret.
    + intros keep. apply triple_then; [exact IH|].
      intros rest. now apply triple_ret.
Qed.

Lemma get_wallet_address_triple chain network connector :
  triple (eq s0) P E (fun _ => True)
         (get_wallet_address chain network connector).
Proof.
  unfold get_wallet_address. apply triple_get_world_then. intros w _.
  cbv zeta. destruct (_ <? _)%nat.
  - apply triple_emit_then; [apply Hnotify|]. now apply triple_ret.
  - apply triple_then; [apply matching_wallets_triple|].
    intros [|w0 ?].
    + apply triple_emit_then; [apply Hnotify|]. now apply triple_ret.
    + apply triple_getitem_then; [other_exn|]. intros a _. now apply triple_ret.
Qed.

Lemma get_balance_triple params :
  triple (eq s0) P E (fun _ => True) (get_balance params).
Proof.
  unfold get_balance, info.
  apply triple_emit_then; [apply Hinfo|].
  apply triple_await_then; [apply Hbalances | intros; other_exn |]. intros d.
  apply triple_getitem_then; [other_exn|]. intros v _.
  apply triple_emit; [apply Hinfo | exact Logic.I].
Qed.

Lemma poll_once_triple chain network tx_hash :
  triple (eq s0) P (fun _ => False) (fun _ => True)
         (poll_once chain network tx_hash).
Proof.
  unfold poll_once, info.
  apply triple_emit_then; [apply Hinfo|].
  apply (triple_try _ _ _ E).
  - apply triple_await_then; [apply Hstatus | intros; other_exn |]. intros d.
    cbv zeta. destruct (status_is _ 1).
    + apply triple_emit_then; [apply Hinfo|]. now apply triple_ret.
    + destruct (status_pending _).
      * apply triple_emit_then; [apply Hinfo|].
        apply triple_get_self_then. intros s _.
        apply triple_emit_then; [apply Hsleep|]. now apply triple_ret.
      * apply triple_emit_then; [apply Hinfo|].
        apply triple_emit_then; [apply Hinfo|]. now apply triple_ret.
  - intros e He. apply triple_emit_then; [now apply Herror|]. now apply triple_ret.
Qed.

Lemma poll_loop_triple turns chain network tx_hash :
  triple (eq s0) P (fun _ => False) (fun _ => True)
         (poll_loop turns chain network tx_hash).
Proof.
  induction turns as [|turns IH]; cbn [poll_loop].
  - apply triple_suspended.
  - apply triple_then; [apply poll_once_triple|].
    intros [|]; [exact IH | now apply triple_ret].
Qed.

Lemma poll_transaction_triple chain network tx_hash :
  triple (eq s0) P (fun _ => False) (fun _ => True)
         (poll_transaction chain network tx_hash).
Proof.
  unfold poll_transaction, info.
  apply triple_emit_then; [apply Hinfo|].
  apply triple_get_world_then. intros w _. apply poll_loop_triple.
Qed.

Lemma execute_trade_triple params trade_type limit_price :
  P (Request (amm_trade (chain params) (network params) (connector params)
                (address params) (base params) (quote params) trade_type
                (order_amount s0) limit_price)) ->
  triple (eq s0) P (fun _ => False) (fun _ => True)
         (execute_trade params trade_type limit_price).
Proof.
  intros Htrade. unfold execute_trade, execute_trade_body, info.
  apply triple_emit_then; [apply Hinfo|].
  apply (triple_try _ _ _ E).
  - apply triple_get_self_then. intros s <-.
    apply triple_await_then; [exact Htrade | intros; other_exn |]. intros d.
    apply triple_getitem_then; [other_exn|]. intros tx_hash _.
    apply triple_emit_then; [apply Hinfo|].
    apply triple_then.
    { eapply triple_weaken; [apply poll_transaction_triple| | |]; auto. }
    intros _. apply triple_then; [apply get_balance_triple|].
    intros _. apply triple_emit; [apply Hinfo | exact Logic.I].
  - intros e He. apply triple_emit; [now apply Herror | exact Logic.I].
Qed.

Lemma determine_and_execute_trade_triple params :
  (forall why, deviation_of s0 = inl why -> E (DecimalDivision why)) ->
  (forall deviation trade_type a,
     deviation_of s0 = inr deviation ->
     direction_of s0 deviation = Some trade_type ->
     falsy (Some a) = false ->
     P (Request (amm_trade (chain params) (network params) (connector params)
                   (Some a) (base params) (quote params) trade_type
                   (order_amount s0)
                   (limit_price_of trade_type (dex_price s0)
                                   (slippage_buffer s0))))) ->
  triple (eq s0) P E
         (fun params' =>
            exists deviation, deviation_of s0 = inr deviation /\
              match direction_of s0 deviation with
              | None => params' = params
              | Some _ => exists a, params' = with_address params a
              end)
         (determine_and_execute_trade params).
Proof.
  intros Hdiv Htrade. unfold determine_and_execute_trade.
  eapply triple_bind.
  { apply (calculate_trade_direction_triple
             (fun r => exists deviation, deviation_of s0 = inr deviation /\
                                         direction_of s0 deviation = r)).
    - exact Hdiv.
    - eauto. }
  intros [trade_type|] (deviation & Hdev & Hdir).
  - unfold info. apply triple_emit_then; [apply Hinfo|].
    eapply triple_bind; [apply get_wallet_address_triple|].
    intros a _. cbv zeta.
    destruct (falsy (address (with_address params a))) eqn:Hfalsy.
    + apply triple_ret. exists deviation. rewrite Hdir. eauto.
    + apply triple_then; [apply get_balance_triple|]. intros _.
      apply triple_get_self_then. intros s <-.
      apply triple_then.
      * eapply triple_weaken; [apply execute_trade_triple| | |]; auto.
        destruct a as [a|]; [|discriminate]. cbn. eapply Htrade; eauto.
      * intros _. apply triple_ret. exists deviation. rewrite Hdir. eauto.
  - apply triple_ret. exists deviation. now rewrite Hdir.
Qed.

End Methods.
End MethodFacts.

Module TaskFacts.
Import Dec Flt Py Strategy Hoare MethodFacts.

Lemma same_but_dex_price_refl s0 : same_but_dex_price s0 s0.
Proof. exists (dex_price s0). now destruct s0. Qed.

Section Task.
Context (s0 : ArbitrageBalancer) (P : effect -> Prop) (E : exn -> Prop).
Hypothesis Hinfo : forall msg, P (Info msg).
Hypothesis Hnotify : forall msg, P (Notify msg).
Hypothesis Hsleep : forall n, P (Sleep n).
Hypothesis Herror : forall msg e, E e -> P (Error msg e).
Hypothesis Hstatus : forall c n h, P (Request (get_transaction_status c n h)).
Hypothesis Hbalances : forall c n a t, P (Request (get_balances c n a t)).
Hypothesis Hexn : forall e, (forall why, e <> DecimalDivision why) -> E e.
Hypothesis Hprice : forall chain network connector base quote,
  P (Request (get_price chain network connector base quote
                (order_amount s0) BUY)).
Hypothesis Hdiv : forall d why,
  deviation_of (set_dex_price d s0) = inl why -> E (DecimalDivision why).
Hypothesis Htrade :
  forall d deviation trade_type a chain network connector base quote,
    deviation_of (set_dex_price d s0) = inr deviation ->
    direction_of (set_dex_price d s0) deviation = Some trade_type ->
    falsy (Some a) = false ->
    P (Request (amm_trade chain network connector (Some a) base quote
                  trade_type (order_amount s0)
                  (limit_price_of trade_type d (slippage_buffer s0)))).

Local Ltac other_exn := apply Hexn; discriminate.

Lemma fetch_dex_price_triple params :
  triple (same_but_dex_price s0) P E (fun _ => True) (fetch_dex_price params).
Proof.
  unfold fetch_dex_price.
  apply triple_get_self_then. intros s [d ->].
  apply triple_await_then; [apply Hprice | intros; other_exn |]. intros data.
  apply triple_getitem_then; [other_exn|]. intros price _.
  destruct price; cbn [to_Decimal];
    first [now apply triple_ret | apply triple_raise; other_exn].
Qed.

Lemma arbitrage_task_triple :
  triple (same_but_dex_price s0) P (fun _ => False) (fun _ => True)
         arbitrage_task.
Proof.
  unfold arbitrage_task, arbitrage_task_body. apply (triple_try _ _ _ E).
  - apply triple_get_self_then. intros s _.
    apply triple_then.
    { unfold unpack2. repeat case_match;
        first [now apply triple_ret | apply triple_raise; other_exn]. }
    intros [base quote].
    apply triple_then.
    { unfold unpack3. repeat case_match;
        first [now apply triple_ret | apply triple_raise; other_exn]. }
    intros [[connector chain] network]. cbv zeta.
    apply triple_then; [apply fetch_dex_price_triple|]. intros price.
    apply triple_update_self_then.
    { intros s' [d ->]. now exists price. }
    unfold info. apply triple_emit_then; [apply Hinfo|].
    apply triple_then.
    + apply triple_frame. intros s1 [d ->].
      eapply triple_weaken;
        [apply determine_and_execute_trade_triple; eauto | | |]; auto.
    + intros _. apply triple_emit; [apply Hinfo | exact Logic.I].
  - intros e He. apply triple_emit; [now apply Herror | exact Logic.I].
Qed.

End Task.
End TaskFacts.

(** ** The polling loop *)

Module PollFacts.
Import Dec Flt Py Strategy.

Lemma status_pending_not_confirmed v :
  status_pending v = true -> status_is v 1 = false.
Proof.
  unfold status_pending, status_is. destruct v as [[| z | |]|]; try reflexivity.
  destruct (Z.eqb_spec z 1) as [->|]; [|reflexivity]. discriminate.
Qed.

Lemma status_pending_codes z :
  status_pending (Some (JInt z)) = true <-> z = -1 \/ z = 0 \/ z = 2.
Proof.
  unfold status_pending, status_is.
  rewrite !orb_true_iff, !Z.eqb_eq. tauto.
Qed.

Lemma poll_once_pending chain network tx_hash w data rest :
  replies w = Returns data :: rest ->
  status_pending (data !! "txStatus") = true ->
  poll_once chain network tx_hash w =
  (Done true,
   mkWorld (self w) (gateway_connections_conf w) rest
     (effects w ++ pending_turn chain network tx_hash (task_cooldown (self w)))
     (scheduled w)).
Proof.
  intros Hr Hp. unfold poll_once, try_except, mbind, Coro_bind, await, info, emit.
  cbn. rewrite Hr. cbn.
  rewrite (status_pending_not_confirmed _ Hp), Hp. cbn.
  unfold pending_turn. now rewrite <- !app_assoc.
Qed.

Lemma poll_once_final chain network tx_hash w final rest :
  replies w = final :: rest ->
  reply_pending final = false ->
  poll_once chain network tx_hash w =
  (Done false,
   mkWorld (self w) (gateway_connections_conf w) rest
     (effects w ++ last_turn chain network tx_hash final) (scheduled w)).
Proof.
  intros Hr Hp. unfold poll_once, try_except, mbind, Coro_bind, await, info, emit.
  cbn. rewrite Hr. destruct final as [data|msg]; cbn in *.
  - rewrite Hp. unfold last_turn.
    destruct (status_is (data !! "txStatus") 1); cbn; now rewrite <- !app_assoc.
  - unfold last_turn. cbn. now rewrite <- !app_assoc.
Qed.

(** The loop polls through the pending replies and stops at the first
    reply that is not pending. *)
Lemma poll_loop_run chain network tx_hash pendings : forall turns w final rest,
  replies w = pendings ++ final :: rest ->
  Forall (fun r => reply_pending r = true) pendings ->
  reply_pending final = false ->
  (length pendings < turns)%nat ->
  poll_loop turns chain network tx_hash w =
  (Done tt,
   mkWorld (self w) (gateway_connections_conf w) rest
     (effects w ++ polling_effects chain network tx_hash
                     (task_cooldown (self w)) pendings final)
     (scheduled w)).
Proof.
  induction pendings as [|r pendings IH]; intros turns w final rest Hr Hp Hf Hlen.
  - destruct turns as [|turns]; [cbn in Hlen; lia|]. cbn [poll_loop].
    unfold mbind, Coro_bind.
    rewrite (poll_once_final _ _ _ w final rest Hr Hf). reflexivity.
  - destruct turns as [|turns]; [cbn in Hlen; lia|]. cbn [poll_loop].
    apply Forall_cons in Hp as [Hr1 Hp]. destruct r as [data|msg]; [|discriminate].
    unfold mbind, Coro_bind.
    rewrite (poll_once_pending _ _ _ w data (pendings ++ final :: rest) Hr Hr1).
    assert (Hlen' : (length pendings < turns)%nat) by (cbn in Hlen; lia).
    erewrite (IH turns); [|reflexivity|exact Hp|exact Hf|exact Hlen']. cbn.
    unfold polling_effects. cbn [map concat]. now rewrite <- !app_assoc.
Qed.

Lemma poll_transaction_run chain network tx_hash w pendings final rest :
  replies w = pendings ++ final :: rest ->
  Forall (fun r => reply_pending r = true) pendings ->
  reply_pending final = false ->
  poll_transaction chain network tx_hash w =
  (Done tt,
   mkWorld (self w) (gateway_connections_conf w) rest
     (effects w ++ Info "Starting poll_transaction..." ::
        polling_effects chain network tx_hash (task_cooldown (self w))
                        pendings final)
     (scheduled w)).
Proof.
  intros Hr Hp Hf. unfold poll_transaction, mbind, Coro_bind, info, emit, get_world.
  cbn -[poll_loop].
  erewrite poll_loop_run; [|exact Hr|exact Hp|exact Hf|].
  - cbn. now rewrite <- app_assoc.
  - rewrite Hr, length_app. cbn. lia.
Qed.

End PollFacts.

Module PollCount.
Import Dec Flt Py Strategy PollFacts.

Lemma polling_effects_queries chain network tx_hash cooldown pendings final :
  length (filter is_status_query
            (polling_effects chain network tx_hash cooldown pendings final))
  = S (length pendings).
Proof.
  unfold polling_effects. induction pendings as [|r pendings IH].
  - destruct final as [data|msg]; cbn; [destruct (status_is _ 1)|]; reflexivity.
  - cbn [map concat length]. rewrite <- app_assoc, filter_app, length_app, IH.
    reflexivity.
Qed.

Lemma polling_effects_sleeps chain network tx_hash cooldown pendings final :
  length (filter is_sleep
            (polling_effects chain network tx_hash cooldown pendings final))
  = length pendings.
Proof.
  unfold polling_effects. induction pendings as [|r pendings IH].
  - destruct final as [data|msg]; cbn; [destruct (status_is _ 1)|]; reflexivity.
  - cbn [map concat length]. rewrite <- app_assoc, filter_app, length_app, IH.
    reflexivity.
Qed.

End PollCount.

(** ** Ticks, tasks and submissions *)

Module TickFacts.
Import Dec Flt Py Strategy Hoare MethodFacts TaskFacts.

Lemma api_price_constant_value : api_price_constant = Some api_price_value.
Proof. vm_compute. reflexivity. Qed.

Lemma on_tick_run w :
  on_tick w =
  (Done tt,
   if on_going_task (self w) then w
   else mkWorld
          (set_on_going_task false
             (set_on_going_task true (set_api_price api_price_value (self w))))
          (gateway_connections_conf w) (replies w)
          (effects w ++ [Info "Updated API Price (Fixed Rate)"])
          (S (scheduled w))).
Proof.
  unfold on_tick, update_api_price. rewrite api_price_constant_value.
  unfold mbind, Coro_bind, get_self. cbn.
  destruct (on_going_task (self w)); [now destruct w | reflexivity].
Qed.

(** With nothing assumed about effects and exceptions, the task's triple
    says that no exception leaves it. *)
Lemma arbitrage_task_never_raises w e : (arbitrage_task w).1 <> Raised e.
Proof.
  assert (T : triple (same_but_dex_price (self w)) (fun _ => True)
                     (fun _ => False) (fun _ => True) arbitrage_task).
  { apply (arbitrage_task_triple _ _ (fun _ => True)); now intros. }
  destruct (T w (same_but_dex_price_refl _)) as (_ & _ & Hr).
  intros Heq. now rewrite Heq in Hr.
Qed.

Lemma execute_trade_never_raises params trade_type limit_price w e :
  (execute_trade params trade_type limit_price w).1 <> Raised e.
Proof.
  assert (T : triple (eq (self w)) (fun _ => True) (fun _ => False)
                     (fun _ => True)
                     (execute_trade params trade_type limit_price)).
  { apply (execute_trade_triple _ _ (fun _ => True)); now intros. }
  destruct (T w eq_refl) as (_ & _ & Hr).
  intros Heq. now rewrite Heq in Hr.
Qed.

End TickFacts.


Module SubmissionFacts.
Import Dec Flt Py Strategy Hoare MethodFacts.

Lemma calculate_trade_direction_quiet w :
  self (calculate_trade_direction w).2 = self w /\
  exists delta, effects (calculate_trade_direction w).2 = effects w ++ delta /\
                Forall no_submission delta.
Proof.
  assert (T : triple (eq (self w)) no_submission (fun _ => True)
                     (fun _ => True) calculate_trade_direction).
  { apply calculate_trade_direction_triple; now intros. }
  destruct (T w eq_refl) as (Hs & Hd & _).
  split; [now symmetry | exact Hd].
Qed.

Lemma get_wallet_address_quiet chain network connector w :
  exists delta,
    effects (get_wallet_address chain network connector w).2
      = effects w ++ delta /\
    Forall no_submission delta.
Proof.
  assert (T : triple (eq (self w)) no_submission (fun _ => True)
                     (fun _ => True)
                     (get_wallet_address chain network connector)).
  { apply get_wallet_address_triple; now intros. }
  destruct (T w eq_refl) as (_ & Hd & _).
  exact Hd.
Qed.

End SubmissionFacts.

(** ** The scheduler's invariant *)

Module LoopFacts.
Import Dec Flt Py Strategy Loop Hoare MethodFacts TaskFacts TickFacts.

Lemma run_snoc w evs ev : run w (evs ++ [ev]) = step (run w evs) ev.
Proof. unfold run. now rewrite fold_left_app. Qed.

Lemma api_price_value_nonzero : coefficient api_price_value <> 0.
Proof. discriminate. Qed.

Lemma deviation_defined s :
  coefficient (api_price s) <> 0 -> exists deviation, deviation_of s = inr deviation.
Proof. intros H. now apply DecBounds.truediv_defined. Qed.

Lemma oracle_ready_boot cd conf rs : oracle_ready (boot cd conf rs).
Proof. split; [now right | constructor]. Qed.

Lemma arbitrage_task_keeps_oracle w :
  api_price (self w) = api_price_value ->
  Forall no_division_error (effects w) ->
  api_price (self (arbitrage_task w).2) = api_price_value /\
  Forall no_division_error (effects (arbitrage_task w).2).
Proof.
  intros Hapi Heff.
  assert (T : triple (same_but_dex_price (self w)) no_division_error
                (fun _ => False) (fun _ => True) arbitrage_task).
  { apply (arbitrage_task_triple _ _ (fun e => forall why, e <> DecimalDivision why)).
    all: try (intros; intros ? ?; discriminate).
    - intros msg e He msg' why [= _ ->]. now apply (He why).
    - auto.
    - intros d why Hdev.
      destruct (deviation_defined (set_dex_price d (self w))) as [q Hq].
      + cbn. rewrite Hapi. apply api_price_value_nonzero.
      + congruence. }
  destruct (T w (same_but_dex_price_refl _)) as ([d Hs] & (delta & Hd & HP) & _).
  split.
  - rewrite Hs. exact Hapi.
  - rewrite Hd. now apply Forall_app.
Qed.

Lemma oracle_ready_step w ev : oracle_ready w -> oracle_ready (step w ev).
Proof.
  intros [Hapi Heff]. destruct ev; cbn [step].
  - rewrite on_tick_run. cbn [snd].
    destruct (on_going_task (self w)); [now split|].
    split; [now left|]. cbn. apply Forall_app. split; [exact Heff|].
    constructor; [|constructor]. intros ? ?. discriminate.
  - destruct (scheduled w) as [|n] eqn:Hn; [split; [now right | exact Heff]|].
    destruct Hapi as [Hapi|]; [|discriminate].
    destruct (arbitrage_task_keeps_oracle
                (mkWorld (self w) (gateway_connections_conf w) (replies w)
                         (effects w) n) Hapi Heff) as [A B].
    split; [now left | exact B].
Qed.

Lemma oracle_ready_run cd conf rs evs : oracle_ready (run (boot cd conf rs) evs).
Proof.
  induction evs as [|ev evs IH] using rev_ind.
  - apply oracle_ready_boot.
  - rewrite run_snoc. now apply oracle_ready_step.
Qed.

(** With a zero oracle price the division does fail, and the failure is
    logged: the log is where a division by zero would show. *)
Lemma zero_oracle_price_is_logged :
  effects (arbitrage_task
             (mkWorld (new 2) [] [price_reply (mkDecimal 32 (-5))] [] O)).2
  = [Request (get_price "ethereum" "mainnet" "balancer" "WETH" "DAI"
                (mkDecimal 1 0) BUY);
     Info "DEX Price";
     Error "Error in arbitrage_task" (DecimalDivision DivisionByZero)].
Proof. vm_compute. reflexivity. Qed.

Lemma ticks_schedule n : forall w,
  on_going_task (self w) = false ->
  scheduled (run w (repeat Tick n)) = (n + scheduled w)%nat /\
  on_going_task (self (run w (repeat Tick n))) = false.
Proof.
  induction n as [|n IH]; intros w Hw; [now split|].
  cbn [repeat run fold_left]. 
  assert (Hstep : step w Tick =
            mkWorld
              (set_on_going_task false
                 (set_on_going_task true (set_api_price api_price_value (self w))))
              (gateway_connections_conf w) (replies w)
              (effects w ++ [Info "Updated API Price (Fixed Rate)"])
              (S (scheduled w))).
  { cbn [step]. rewrite on_tick_run, Hw. reflexivity. }
  fold (run (step w Tick) (repeat Tick n)). rewrite Hstep.
  match goal with
  | |- context [run ?w' _] => destruct (IH w' eq_refl) as [A B]
  end.
  cbn in A. split; [lia | exact B].
Qed.

End LoopFacts.

(** ** The wallet lookup *)

Module WalletFacts.
Import Dec Flt Py Strategy.

Lemma matching_wallets_filter chain network connector conf w :
  Forall (wallet_readable chain connector) conf ->
  matching_wallets chain network connector conf w =
  (Done (List.filter (wallet_matches chain network connector) conf), w).
Proof.
  induction conf as [|e conf IH]; intros Hall; [reflexivity|].
  apply Forall_cons in Hall as [(Hc & Hrest) Hall].
  cbn [matching_wallets List.filter]. unfold wallet_matches at 1.
  unfold mbind, Coro_bind, getitem.
  destruct Hc as [c Hc]. rewrite Hc. cbn.
  destruct (decide (c = chain)) as [->|Hne].
  - destruct (Hrest Hc) as ([k Hk] & Hrest'). rewrite Hk. cbn.
    destruct (decide (k = connector)) as [->|Hne].
    + destruct (Hrest' Hk) as [n Hn]. rewrite Hn. cbn.
      rewrite (IH Hall). cbn.
      repeat case_bool_decide; simplify_eq; reflexivity.
    + cbn. rewrite (IH Hall). cbn.
      repeat case_bool_decide; simplify_eq; reflexivity.
  - cbn. rewrite (IH Hall). cbn.
    repeat case_bool_decide; simplify_eq; reflexivity.
Qed.


End WalletFacts.

(** ** Zero, sign and the decision *)

Module DecisionFacts.
Import Dec Flt Py Strategy Round RoundFacts DecFacts DecBounds FltFacts.

Lemma value_zero_iff d : (value d == 0)%Q <-> coefficient d = 0.
Proof.
  unfold value. pose proof (pow10_Q_pos (exponent d)) as Hp. split.
  - intros H. destruct (Z.eq_dec (coefficient d) 0) as [|Hne]; [assumption|].
    exfalso. apply Qmult_integral in H as [H|H].
    + apply Hne. apply inject_Z_injective. exact H.
    + rewrite H in Hp. now apply Qlt_irrefl in Hp.
  - intros ->. ring.
Qed.

Lemma fix_zero e : fix_ (mkDecimal 0 e) = mkDecimal 0 e.
Proof. reflexivity. Qed.

Lemma sub_equal_values a b :
  (value a == value b)%Q -> coefficient (sub a b) = 0.
Proof.
  intros H. unfold sub.
  assert (Hz : coefficient (add_exact a (neg b)) = 0).
  { apply value_zero_iff. rewrite value_add_exact, value_neg, H. ring. }
  rewrite fix_small; [exact Hz|]. rewrite Hz, digits_zero. unfold prec. lia.
Qed.

Lemma truediv_zero a b :
  coefficient a = 0 -> coefficient b <> 0 ->
  truediv a b = inr (mkDecimal 0 (exponent a - exponent b)).
Proof.
  intros Ha Hb. unfold truediv. rewrite Ha.
  destruct (Z.eqb_spec (coefficient b) 0); [contradiction|]. reflexivity.
Qed.

Lemma round_binary64_nonneg num den :
  0 <= num -> 0 < den ->
  match round_binary64 false num den with
  | Finite m _ => 0 <= m
  | Inf negative => negative = false
  end.
Proof.
  intros Hnum Hden. unfold round_binary64.
  destruct (num =? 0); [lia|].
  set (e := Z.max _ _).
  destruct (2 ^ 1024 <=? _); [reflexivity|].
  destruct (Z.leb_spec 0 e).
  - apply half_even_nonneg; [|assumption].
    apply Z.mul_pos_pos; [assumption|]. apply Z.pow_pos_nonneg; lia.
  - apply half_even_nonneg; [assumption|].
    apply Z.mul_nonneg_nonneg; [assumption|]. apply Z.pow_nonneg; lia.
Qed.

Lemma of_decimal_nonneg d :
  0 <= coefficient d ->
  match of_decimal d with
  | Finite m _ => 0 <= m
  | Inf negative => negative = false
  end.
Proof.
  intros Hc. unfold of_decimal.
  replace (coefficient d <? 0) with false by (symmetry; apply Z.ltb_ge; lia).
  rewrite Z.abs_eq by assumption.
  destruct (0 <=? exponent d) eqn:He.
  - apply round_binary64_nonneg; [|lia].
    apply Z.mul_nonneg_nonneg; [assumption|]. apply Z.pow_nonneg; lia.
  - apply round_binary64_nonneg; [assumption|].
    apply Z.pow_pos_nonneg; lia.
Qed.

Lemma pow2_Q_pos e : (0 < pow2 e)%Q.
Proof. apply Qpower_0_lt. reflexivity. Qed.

Lemma at_most_zero_nonneg x :
  match x with
  | Finite m _ => 0 <= m
  | Inf negative => negative = false
  end ->
  at_most 0 x.
Proof.
  destruct x as [m e|neg]; cbn; [|auto]. intros Hm.
  apply Qmult_le_0_compat; [|apply Qlt_le_weak, pow2_Q_pos].
  change 0%Q with (inject_Z 0). now rewrite <- Zle_Qle.
Qed.

Lemma above_not_at_most q x : above q x <-> ~ at_most q x.
Proof.
  destruct x as [m e|[|]]; cbn.
  - split; [apply Qlt_not_le | apply Qnot_le_lt].
  - split; [discriminate | reflexivity].
  - split; [discriminate | intros H; now contradiction H].
Qed.

End DecisionFacts.

(** ** The quote and the configuration strings *)

Module QuoteFacts.
Import Dec Flt Py Strategy Hoare MethodFacts TaskFacts.

Lemma split_aux_length sep s : forall cur,
  length (split_aux sep s cur) = S (occurrences sep s).
Proof.
  induction s as [|c s IH]; intros cur; [reflexivity|].
  cbn [split_aux occurrences]. destruct (Ascii.eqb c sep); cbn; now rewrite IH.
Qed.

Lemma split_length sep s : length (split sep s) = S (occurrences sep s).
Proof. apply split_aux_length. Qed.

Lemma unpack2_raises l w :
  length l <> 2%nat -> unpack2 l w = (Raised ValueError, w).
Proof. destruct l as [|a [|b [|c l]]]; cbn; intros H; try reflexivity; lia. Qed.

Lemma unpack3_raises l w :
  length l <> 3%nat -> unpack3 l w = (Raised ValueError, w).
Proof.
  destruct l as [|a [|b [|c [|d l]]]]; cbn; intros H; try reflexivity; lia.
Qed.

Lemma unpack2_returns l w :
  length l = 2%nat -> exists a b, l = [a; b] /\ unpack2 l w = (Done (a, b), w).
Proof.
  destruct l as [|a [|b [|c l]]]; cbn; intros H; try discriminate. eauto.
Qed.

Lemma fetch_dex_price_run params w r rest :
  replies w = r :: rest ->
  fetch_dex_price params w =
  (match quote_of r with inl e => Raised e | inr d => Done d end,
   requested (get_price (chain params) (network params) (connector params)
                (base params) (quote params) (order_amount (self w)) BUY)
             rest w).
Proof.
  intros Hr. unfold fetch_dex_price, mbind, Coro_bind, get_self, await.
  cbn. rewrite Hr. destruct r as [data|msg]; cbn; [|reflexivity].
  unfold getitem. destruct (data !! "price") as [[| | |]|]; reflexivity.
Qed.

Lemma after_quote_triple s0 params :
  triple (eq s0) (fun _ => True) (fun _ => False) (fun _ => True)
         (after_quote params).
Proof.
  unfold after_quote. apply (triple_try _ _ _ (fun _ => True)).
  - apply triple_then.
    + eapply triple_weaken;
        [apply (determine_and_execute_trade_triple
                  s0 (fun _ => True) (fun _ => True)) | | |]; now intros.
    + intros _. now apply triple_emit.
  - intros e _. now apply triple_emit.
Qed.

End QuoteFacts.

(** ** The guard under any schedule *)

Module GuardFacts.
Import Dec Flt Py Strategy Loop Hoare MethodFacts TaskFacts TickFacts LoopFacts.

Lemma arbitrage_task_keeps_guard w :
  on_going_task (self (arbitrage_task w).2) = on_going_task (self w).
Proof.
  assert (T : triple (same_but_dex_price (self w)) (fun _ => True)
                     (fun _ => False) (fun _ => True) arbitrage_task).
  { apply (arbitrage_task_triple _ _ (fun _ => True)); now intros. }
  destruct (T w (same_but_dex_price_refl _)) as ([d Hs] & _).
  now rewrite Hs.
Qed.

Lemma step_keeps_guard_clear w ev :
  on_going_task (self w) = false -> on_going_task (self (step w ev)) = false.
Proof.
  intros Hw. destruct ev; cbn [step].
  - rewrite on_tick_run, Hw. reflexivity.
  - destruct (scheduled w) as [|n]; [exact Hw|].
    now rewrite arbitrage_task_keeps_guard.
Qed.

Lemma run_keeps_guard_clear evs : forall w,
  on_going_task (self w) = false -> on_going_task (self (run w evs)) = false.
Proof.
  induction evs as [|ev evs IH] using rev_ind; intros w Hw; [exact Hw|].
  rewrite run_snoc. now apply step_keeps_guard_clear, IH.
Qed.

End GuardFacts.

(** ** The limit prices around the quote *)

Module LimitFacts.
Import Round RoundFacts Dec DecFacts DecBounds Py Strategy.

Lemma value_one_plus s :
  (0 <= value s)%Q -> (1 <= value (add (of_int 1) s))%Q.
Proof.
  intros Hs.
  assert (H1 : (value (fix_ (of_int 1)) <= value (add (of_int 1) s))%Q).
  { apply fix_mono. rewrite value_add_exact, value_of_int. lra. }
  rewrite fix_small in H1 by (vm_compute; discriminate).
  now rewrite value_of_int in H1.
Qed.

Lemma value_one_minus s :
  (0 <= value s)%Q -> (value (sub (of_int 1) s) <= 1)%Q.
Proof.
  intros Hs.
  assert (H1 : (value (sub (of_int 1) s) <= value (fix_ (of_int 1)))%Q).
  { apply fix_mono. rewrite value_add_exact, value_neg, value_of_int. lra. }
  rewrite fix_small in H1 by (vm_compute; discriminate).
  now rewrite value_of_int in H1.
Qed.

End LimitFacts.

(** ** Polling without an end *)

Module PendingFacts.
Import Dec Flt Py Strategy PollFacts.

Lemma poll_once_waits chain network tx_hash w :
  replies w = [] ->
  poll_once chain network tx_hash w =
  (Blocked,
   mkWorld (self w) (gateway_connections_conf w) []
     (effects w ++ [Info "Polling transaction status";
                    Request (get_transaction_status chain network tx_hash)])
     (scheduled w)).
Proof.
  intros Hr. unfold poll_once, try_except, mbind, Coro_bind, await, info, emit.
  cbn. rewrite Hr. cbn. now rewrite <- !app_assoc.
Qed.

Lemma poll_loop_waits chain network tx_hash pendings : forall turns w,
  replies w = pendings ->
  Forall (fun r => reply_pending r = true) pendings ->
  (length pendings < turns)%nat ->
  poll_loop turns chain network tx_hash w =
  (Blocked,
   mkWorld (self w) (gateway_connections_conf w) []
     (effects w ++ polling_so_far chain network tx_hash
                     (task_cooldown (self w)) pendings)
     (scheduled w)).
Proof.
  induction pendings as [|r pendings IH]; intros turns w Hr Hp Hlen.
  - destruct turns as [|turns]; [cbn in Hlen; lia|]. cbn [poll_loop].
    unfold mbind, Coro_bind.
    rewrite (poll_once_waits _ _ _ w Hr). reflexivity.
  - destruct turns as [|turns]; [cbn in Hlen; lia|]. cbn [poll_loop].
    apply Forall_cons in Hp as [Hr1 Hp]. destruct r as [data|msg]; [|discriminate].
    unfold mbind, Coro_bind.
    rewrite (poll_once_pending _ _ _ w data pendings Hr Hr1).
    assert (Hlen' : (length pendings < turns)%nat) by (cbn in Hlen; lia).
    erewrite (IH turns); [|reflexivity|exact Hp|exact Hlen']. cbn.
    unfold polling_so_far. cbn [map concat]. now rewrite <- !app_assoc.
Qed.

Lemma polling_so_far_queries chain network tx_hash cooldown pendings :
  length (filter is_status_query
            (polling_so_far chain network tx_hash cooldown pendings))
  = S (length pendings).
Proof.
  unfold polling_so_far. induction pendings as [|r pendings IH]; [reflexivity|].
  cbn [map concat length]. rewrite <- app_assoc, filter_app, length_app, IH.
  reflexivity.
Qed.

Lemma polling_so_far_sleeps chain network tx_hash cooldown pendings :
  length (filter is_sleep
            (polling_so_far chain network tx_hash cooldown pendings))
  = length pendings.
Proof.
  unfold polling_so_far. induction pendings as [|r pendings IH]; [reflexivity|].
  cbn [map concat length]. rewrite <- app_assoc, filter_app, length_app, IH.
  reflexivity.
Qed.

End PendingFacts.

(** ** Balances and the submission *)

Module TradeFacts.
Import Dec Flt Py Strategy Hoare PollFacts.

Lemma get_balance_run params w r rest :
  replies w = r :: rest ->
  get_balance params w =
  (match balances_of r with inl e => Raised e | inr _ => Done tt end,
   advanced rest (balance_effects params r) w).
Proof.
  intros Hr. unfold get_balance, mbind, Coro_bind, info, emit, await, getitem.
  cbn. rewrite Hr. unfold advanced, balance_effects, balance_request.
  destruct r as [data|msg]; cbn.
  - destruct (data !! "balances"); cbn; now rewrite <- !app_assoc.
  - now rewrite <- !app_assoc.
Qed.


(** The counting of submissions: sequencing adds the bounds up. *)
Lemma submits_at_most_weaken {A} (m : Coro A) n k :
  (n <= k)%nat -> submits_at_most n m -> submits_at_most k m.
Proof.
  intros Hnk Hm w. destruct (Hm w) as (delta & Hd & Hc).
  exists delta. split; [exact Hd | lia].
Qed.

Lemma submits_at_most_bind {A B} (m : Coro A) (k : A -> Coro B) n1 n2 :
  submits_at_most n1 m -> (forall a, submits_at_most n2 (k a)) ->
  submits_at_most (n1 + n2) (m ≫= k).
Proof.
  intros Hm Hk w. destruct (Hm w) as (d1 & Hd1 & Hc1).
  unfold mbind, Coro_bind. destruct (m w) as [[a|e|] w1]; cbn in Hd1 |- *.
  - destruct (Hk a w1) as (d2 & Hd2 & Hc2).
    exists (d1 ++ d2). split.
    + now rewrite Hd2, Hd1, app_assoc.
    + unfold submissions in *. rewrite filter_app, length_app. lia.
  - exists d1. split; [exact Hd1 | lia].
  - exists d1. split; [exact Hd1 | lia].
Qed.

Lemma submits_at_most_try {A} (m : Coro A) (h : exn -> Coro A) n1 n2 :
  submits_at_most n1 m -> (forall e, submits_at_most n2 (h e)) ->
  submits_at_most (n1 + n2) (try_except m h).
Proof.
  intros Hm Hh w. destruct (Hm w) as (d1 & Hd1 & Hc1).
  unfold try_except. destruct (m w) as [[a|e|] w1]; cbn in Hd1 |- *.
  - exists d1. split; [exact Hd1 | lia].
  - destruct (Hh e w1) as (d2 & Hd2 & Hc2).
    exists (d1 ++ d2). split.
    + now rewrite Hd2, Hd1, app_assoc.
    + unfold submissions in *. rewrite filter_app, length_app. lia.
  - exists d1. split; [exact Hd1 | lia].
Qed.

Lemma submissions_cons e l :
  submissions (e :: l)
  = ((if is_submission e then 1 else 0) + submissions l)%nat.
Proof.
  unfold submissions. rewrite filter_cons.
  destruct (is_submission e); reflexivity.
Qed.

Lemma submissions_quiet l : Forall no_submission l -> submissions l = 0%nat.
Proof.
  induction 1 as [|e l He _ IH]; [reflexivity|].
  rewrite submissions_cons, IH. unfold no_submission in He. now rewrite He.
Qed.

Lemma submits_at_most_quiet {A} (m : Coro A) E Q :
  (forall s0, triple (eq s0) no_submission E Q m) -> submits_at_most 0 m.
Proof.
  intros T w. destruct (T (self w) w eq_refl) as (_ & (delta & Hd & HP) & _).
  exists delta. split; [exact Hd|]. rewrite (submissions_quiet _ HP). lia.
Qed.

Lemma submits_at_most_emit e : is_submission e = false -> submits_at_most 0 (emit e).
Proof.
  intros He w. exists [e]. split; [reflexivity|].
  rewrite submissions_cons, He. reflexivity.
Qed.

Lemma submits_at_most_await r : submits_at_most 1 (await r).
Proof.
  intros w. exists [Request r]. split.
  - unfold await. now destruct (replies w) as [|[data|msg] rest].
  - rewrite submissions_cons. destruct (is_submission (Request r)); cbn; lia.
Qed.

Lemma submits_at_most_ret {A} (a : A) : submits_at_most 0 (mret a).
Proof. intros w. exists []. split; [now rewrite app_nil_r | reflexivity]. Qed.

Lemma submits_at_most_get_self : submits_at_most 0 get_self.
Proof. intros w. exists []. split; [now rewrite app_nil_r | reflexivity]. Qed.

Lemma submits_at_most_update_self f : submits_at_most 0 (update_self f).
Proof. intros w. exists []. split; [cbn; now rewrite app_nil_r | reflexivity]. Qed.

Lemma get_balance_quiet params : submits_at_most 0 (get_balance params).
Proof.
  apply (submits_at_most_quiet _ (fun _ => True) (fun _ => True)). intros s0.
  apply (MethodFacts.get_balance_triple s0 no_submission (fun _ => True));
    now intros.
Qed.

Lemma poll_transaction_quiet chain network tx_hash :
  submits_at_most 0 (poll_transaction chain network tx_hash).
Proof.
  apply (submits_at_most_quiet _ (fun _ => False) (fun _ => True)). intros s0.
  apply (MethodFacts.poll_transaction_triple s0 no_submission (fun _ => True));
    now intros.
Qed.

Lemma calculate_trade_direction_submits_nothing :
  submits_at_most 0 calculate_trade_direction.
Proof.
  apply (submits_at_most_quiet _ (fun _ => True) (fun _ => True)). intros s0.
  apply (MethodFacts.calculate_trade_direction_triple
           s0 no_submission (fun _ => True)); now intros.
Qed.

Lemma get_wallet_address_submits_nothing chain network connector :
  submits_at_most 0 (get_wallet_address chain network connector).
Proof.
  apply (submits_at_most_quiet _ (fun _ => True) (fun _ => True)). intros s0.
  apply (MethodFacts.get_wallet_address_triple
           s0 no_submission (fun _ => True)); now intros.
Qed.

Lemma execute_trade_submits_once params side limit_price :
  submits_at_most 1 (execute_trade params side limit_price).
Proof.
  unfold execute_trade, execute_trade_body, info, error.
  apply (submits_at_most_bind _ _ 0 1); [now apply submits_at_most_emit|].
  intros _. apply (submits_at_most_try _ _ 1 0).
  - apply (submits_at_most_bind _ _ 0 1); [apply submits_at_most_get_self|].
    intros s. apply (submits_at_most_bind _ _ 1 0); [apply submits_at_most_await|].
    intros data. apply (submits_at_most_bind _ _ 0 0).
    { unfold getitem. destruct (data !! "txHash"); [apply submits_at_most_ret|].
      intros w. exists []. split; [now rewrite app_nil_r | reflexivity]. }
    intros tx_hash.
    apply (submits_at_most_bind _ _ 0 0); [now apply submits_at_most_emit|].
    intros _.
    apply (submits_at_most_bind _ _ 0 0); [apply poll_transaction_quiet|].
    intros _. apply (submits_at_most_bind _ _ 0 0); [apply get_balance_quiet|].
    intros _. now apply submits_at_most_emit.
  - intros e. now apply submits_at_most_emit.
Qed.

Lemma determine_and_execute_trade_submits_once params :
  submits_at_most 1 (determine_and_execute_trade params).
Proof.
  unfold determine_and_execute_trade, info.
  apply (submits_at_most_bind _ _ 0 1);
    [apply calculate_trade_direction_submits_nothing|].
  intros [side|]; [|apply (submits_at_most_weaken _ 0); [lia|];
                    apply submits_at_most_ret].
  apply (submits_at_most_bind _ _ 0 1); [now apply submits_at_most_emit|].
  intros _.
  apply (submits_at_most_bind _ _ 0 1);
    [apply get_wallet_address_submits_nothing|].
  intros a. cbv zeta. destruct (falsy _).
  { apply (submits_at_most_weaken _ 0); [lia|]. apply submits_at_most_ret. }
  apply (submits_at_most_bind _ _ 0 1); [apply get_balance_quiet|].
  intros _. apply (submits_at_most_bind _ _ 0 1); [apply submits_at_most_get_self|].
  intros s. apply (submits_at_most_bind _ _ 1 0);
    [apply execute_trade_submits_once|].
  intros _. apply submits_at_most_ret.
Qed.

Lemma unpack2_quiet l : submits_at_most 0 (unpack2 l).
Proof.
  intros w. exists []. split; [|reflexivity]. rewrite app_nil_r.
  now destruct l as [|a [|b [|c l]]].
Qed.

Lemma unpack3_quiet l : submits_at_most 0 (unpack3 l).
Proof.
  intros w. exists []. split; [|reflexivity]. rewrite app_nil_r.
  now destruct l as [|a [|b [|c [|d l]]]].
Qed.

Lemma fetch_dex_price_quiet params : submits_at_most 0 (fetch_dex_price params).
Proof.
  intros w. unfold fetch_dex_price, mbind, Coro_bind, get_self, await.
  exists [Request (get_price (chain params) (network params) (connector params)
                     (base params) (quote params) (order_amount (self w)) BUY)].
  split; [|reflexivity].
  destruct (replies w) as [|[data|msg] rest]; try reflexivity.
  unfold getitem. destruct (data !! "price") as [[| | |]|]; reflexivity.
Qed.

Lemma arbitrage_task_submits_once : submits_at_most 1 arbitrage_task.
Proof.
  unfold arbitrage_task, arbitrage_task_body, info, error.
  apply (submits_at_most_try _ _ 1 0); [|intros e; now apply submits_at_most_emit].
  apply (submits_at_most_bind _ _ 0 1); [apply submits_at_most_get_self|].
  intros s. apply (submits_at_most_bind _ _ 0 1); [apply unpack2_quiet|].
  intros [base quote]. apply (submits_at_most_bind _ _ 0 1); [apply unpack3_quiet|].
  intros [[connector chain] network]. cbv zeta.
  apply (submits_at_most_bind _ _ 0 1); [apply fetch_dex_price_quiet|].
  intros price.
  apply (submits_at_most_bind _ _ 0 1); [apply submits_at_most_update_self|].
  intros _. apply (submits_at_most_bind _ _ 0 1); [now apply submits_at_most_emit|].
  intros _. apply (submits_at_most_bind _ _ 1 0);
    [apply determine_and_execute_trade_submits_once|].
  intros _. now apply submits_at_most_emit.
Qed.

End TradeFacts.

(** ** Counting trades along a run *)

Module RunFacts.
Import Dec Flt Py Strategy Loop TickFacts TradeFacts.

Lemma submissions_app l1 l2 :
  submissions (l1 ++ l2) = (submissions l1 + submissions l2)%nat.
Proof. unfold submissions. now rewrite filter_app, length_app. Qed.

Lemma step_submissions w ev :
  (submissions (effects (step w ev))
   <= submissions (effects w) + task_runs [ev])%nat.
Proof.
  destruct ev; cbn [step task_runs].
  - rewrite on_tick_run. cbn [snd].
    destruct (on_going_task (self w)); [lia|].
    cbn [effects]. rewrite submissions_app, submissions_cons.
    cbn [is_submission]. change (submissions []) with 0%nat. lia.
  - destruct (scheduled w) as [|n]; [lia|].
    destruct (arbitrage_task_submits_once
                (mkWorld (self w) (gateway_connections_conf w) (replies w)
                         (effects w) n)) as (delta & Hd & Hc).
    cbn [snd] in *. rewrite Hd. cbn [effects]. rewrite submissions_app. lia.
Qed.

Lemma run_submissions evs : forall w,
  (submissions (effects (run w evs))
   <= submissions (effects w) + task_runs evs)%nat.
Proof.
  induction evs as [|ev evs IH]; intros w; [cbn; lia|].
  change (run w (ev :: evs)) with (run (step w ev) evs).
  pose proof (IH (step w ev)) as H1.
  pose proof (step_submissions w ev) as H2.
  destruct ev; cbn [task_runs] in *; lia.
Qed.

End RunFacts.

(** ** The task after its quote *)

Module CycleFacts.
Import Dec Flt Py Strategy Hoare MethodFacts TaskFacts.

Lemma arbitrage_task_after_quote w base quote connector chain network r rest d :
  split (Ascii.ascii_of_nat 45) (trading_pair (self w)) = [base; quote] ->
  split (Ascii.ascii_of_nat 95) (connector_chain_network (self w))
    = [connector; chain; network] ->
  replies w = r :: rest ->
  quote_of r = inr d ->
  arbitrage_task w =
  after_quote (mkTradeParams chain network connector base quote None)
    (mkWorld (set_dex_price d (self w)) (gateway_connections_conf w) rest
       (effects w ++
        [Request (quote_request (self w) base quote connector chain network);
         Info "DEX Price"]) (scheduled w)).
Proof.
  intros Hpair Hccn Hr Hq.
  unfold arbitrage_task, after_quote, try_except, arbitrage_task_body.
  unfold mbind at 1, Coro_bind at 1, get_self. cbv iota beta.
  rewrite Hpair. unfold mbind at 1, Coro_bind at 1.
  cbn [unpack2 mret Coro_ret]. cbv iota beta. rewrite Hccn.
  unfold mbind at 1, Coro_bind at 1. cbn [unpack3 mret Coro_ret].
  cbv iota beta zeta. unfold mbind at 1, Coro_bind at 1.
  rewrite (QuoteFacts.fetch_dex_price_run _ w r rest Hr), Hq.
  cbv iota beta. unfold mbind at 1, Coro_bind at 1.
  unfold update_self at 1. cbv iota beta.
  unfold mbind at 1, Coro_bind at 1. unfold info at 1, emit at 1.
  cbv iota beta. unfold requested, set_self, quote_request.
  cbn [self gateway_connections_conf replies effects scheduled].
  rewrite <- app_assoc. reflexivity.
Qed.

End CycleFacts.

(** ** The submission and what follows it *)

Module SubmitFacts.
Import Dec Flt Py Strategy Hoare MethodFacts.

Lemma after_submission_quiet s0 params (data : gmap string jval) :
  triple (eq s0) no_submission (fun _ => False) (fun _ => True)
    (try_except
       (tx_hash ← getitem data "txHash";
        info "Trade submitted." ;;
        poll_transaction (chain params) (network params) tx_hash ;;
        get_balance params ;;
        info "Trade execution completed.")
       (fun e => error "Error executing trade" e)).
Proof.
  apply (triple_try _ _ _ (fun _ => True)).
  - apply triple_getitem_then; [exact Logic.I|]. intros tx_hash _.
    unfold info. apply triple_emit_then; [reflexivity|].
    apply triple_then.
    { eapply triple_weaken;
        [apply (poll_transaction_triple s0 no_submission (fun _ => True))
        | | |]; now intros. }
    intros _. apply triple_then.
    { apply (get_balance_triple s0 no_submission (fun _ => True)); now intros. }
    intros _. now apply triple_emit.
  - intros e _. now apply triple_emit.
Qed.

(** [execute_trade] logs, sends the trade, and sends no other trade. *)
Lemma execute_trade_sends_trade params side limit_price w :
  exists delta,
    effects (execute_trade params side limit_price w).2 =
      effects w ++
      Info "Executing trade" ::
      Request (trade_request (self w) params side limit_price) :: delta /\
    Forall no_submission delta.
Proof.
  unfold execute_trade.
  unfold mbind at 1, Coro_bind at 1, info at 1, emit at 1. cbv iota beta.
  set (w1 := mkWorld (self w) (gateway_connections_conf w) (replies w)
               (effects w ++ [Info "Executing trade"]) (scheduled w)).
  destruct (replies w) as [|[data|msg] rest] eqn:Hr.
  - exists []. split; [|constructor].
    unfold try_except, execute_trade_body, mbind, Coro_bind, get_self, await.
    subst w1. cbn. try rewrite Hr. cbn. now rewrite <- app_assoc.
  - set (w2 := mkWorld (self w) (gateway_connections_conf w) rest
                 (effects w ++ [Info "Executing trade";
                    Request (trade_request (self w) params side limit_price)])
                 (scheduled w)).
    destruct (after_submission_quiet (self w) params data w2 eq_refl)
      as (_ & (delta & Hd & HP) & _).
    exists delta. split; [|exact HP].
    assert (Heq : try_except (execute_trade_body params side limit_price)
                    (fun e => error "Error executing trade" e) w1
                  = try_except
                      (tx_hash ← getitem data "txHash";
                       info "Trade submitted." ;;
                       poll_transaction (chain params) (network params) tx_hash ;;
                       get_balance params ;;
                       info "Trade execution completed.")
                      (fun e => error "Error executing trade" e) w2).
    { unfold try_except, execute_trade_body.
      unfold mbind at 1, Coro_bind at 1, get_self at 1. cbv iota beta.
      unfold mbind at 1, Coro_bind at 1, await at 1.
      subst w1 w2. cbn [replies self effects gateway_connections_conf scheduled].
      try rewrite Hr. cbv iota beta. unfold trade_request.
      rewrite <- app_assoc. reflexivity. }
    rewrite Heq, Hd. subst w2. cbn [effects]. now rewrite <- app_assoc.
  - exists [Error "Error executing trade" (GatewayError msg)].
    split; [|constructor; [reflexivity | constructor]].
    unfold try_except, execute_trade_body, mbind, Coro_bind, get_self, await,
      error, emit.
    subst w1. cbn. try rewrite Hr. cbn. now rewrite <- !app_assoc.
Qed.

(** The code after the balance request sends its trade at the limit price
    of the venue price it finds. *)
Lemma submit_at_limit_price_sends params side w :
  exists delta,
    effects (submit_at_limit_price params side w).2 =
      effects w ++
      Info "Executing trade" ::
      Request (trade_request (self w) params side
                 (limit_price_of side (dex_price (self w))
                                 (slippage_buffer (self w)))) :: delta /\
    Forall no_submission delta.
Proof.
  unfold submit_at_limit_price.
  unfold mbind at 1, Coro_bind at 1, get_self at 1. cbv iota beta zeta.
  destruct (execute_trade_sends_trade
              params side
              (limit_price_of side (dex_price (self w))
                              (slippage_buffer (self w))) w)
    as (delta & Hd & HP).
  exists delta. split; [|exact HP].
  unfold mbind, Coro_bind.
  destruct (execute_trade params side _ w) as [[[]|e|] w']; exact Hd.
Qed.

End SubmitFacts.

(** ** The task around its quote *)

Module ResumeFacts.
Import Dec Flt Py Strategy Hoare MethodFacts TaskFacts.

Section Names.
Context (w : World) (base quote connector chain network : string).
Hypothesis Hpair :
  split (Ascii.ascii_of_nat 45) (trading_pair (self w)) = [base; quote].
Hypothesis Hccn :
  split (Ascii.ascii_of_nat 95) (connector_chain_network (self w))
  = [connector; chain; network].

Lemma arbitrage_task_to_quote :
  arbitrage_task w =
  try_except
    (price ← fetch_dex_price
               (mkTradeParams chain network connector base quote None);
     update_self (set_dex_price price) ;;
     info "DEX Price" ;;
     _ ← determine_and_execute_trade
           (mkTradeParams chain network connector base quote None);
     info "determine_and_execute_trade completed....")
    (fun e => error "Error in arbitrage_task" e) w.
Proof.
  unfold arbitrage_task, try_except, arbitrage_task_body.
  unfold mbind at 1, Coro_bind at 1, get_self. cbv iota beta.
  rewrite Hpair. unfold mbind at 1, Coro_bind at 1.
  cbn [unpack2 mret Coro_ret]. cbv iota beta. rewrite Hccn.
  unfold mbind at 1, Coro_bind at 1. cbn [unpack3 mret Coro_ret].
  cbv iota beta zeta. reflexivity.
Qed.

Lemma arbitrage_task_waits :
  replies w = [] ->
  arbitrage_task w =
  (Blocked,
   requested (quote_request (self w) base quote connector chain network) [] w).
Proof.
  intros Hr. rewrite arbitrage_task_to_quote.
  unfold try_except. unfold mbind at 1, Coro_bind at 1.
  unfold fetch_dex_price, mbind, Coro_bind, get_self, await. rewrite Hr.
  reflexivity.
Qed.

Lemma arbitrage_task_failed_quote r rest e :
  replies w = r :: rest ->
  quote_of r = inl e ->
  arbitrage_task w =
  (Done tt,
   logged_error "Error in arbitrage_task" e
     (requested (quote_request (self w) base quote connector chain network)
                rest w)).
Proof.
  intros Hr Hq. rewrite arbitrage_task_to_quote.
  unfold try_except. unfold mbind at 1, Coro_bind at 1.
  rewrite (QuoteFacts.fetch_dex_price_run _ w r rest Hr), Hq. reflexivity.
Qed.

Lemma arbitrage_task_resumes r rest d :
  replies w = r :: rest ->
  quote_of r = inr d ->
  arbitrage_task w =
  arbitrage_task_resumed
    (mkTradeParams chain network connector base quote None) d
    (requested (quote_request (self w) base quote connector chain network)
               rest w).
Proof.
  intros Hr Hq. rewrite arbitrage_task_to_quote.
  unfold arbitrage_task_resumed, try_except.
  unfold mbind at 1, Coro_bind at 1.
  rewrite (QuoteFacts.fetch_dex_price_run _ w r rest Hr), Hq. reflexivity.
Qed.

End Names.

Lemma quote_failure_fails r e : quote_failure r = Some e -> quote_of r = inl e.
Proof.
  destruct r as [data|msg]; cbn; [|congruence].
  destruct (data !! "price") as [[| | |]|]; congruence.
Qed.

Lemma arbitrage_task_resumed_stores params d w :
  arbitrage_task_resumed params d w = after_quote params (quote_stored d w).
Proof. reflexivity. Qed.

Section AfterQuote.
Context (s0 : ArbitrageBalancer) (P : effect -> Prop) (params : TradeParams).
Hypothesis Hinfo : forall msg, P (Info msg).
Hypothesis Hnotify : forall msg, P (Notify msg).
Hypothesis Hsleep : forall n, P (Sleep n).
Hypothesis Herror : forall msg e, P (Error msg e).
Hypothesis Hstatus : forall c n h, P (Request (get_transaction_status c n h)).
Hypothesis Hbalances : forall c n a t, P (Request (get_balances c n a t)).
Hypothesis Htrade :
  forall deviation side a,
    deviation_of s0 = inr deviation ->
    direction_of s0 deviation = Some side ->
    falsy (Some a) = false ->
    P (Request (amm_trade (chain params) (network params) (connector params)
                  (Some a) (base params) (quote params) side
                  (order_amount s0)
                  (limit_price_of side (dex_price s0) (slippage_buffer s0)))).

Lemma after_quote_adds :
  triple (eq s0) P (fun _ => False) (fun _ => True) (after_quote params).
Proof.
  unfold after_quote. apply (triple_try _ _ _ (fun _ => True)).
  - apply triple_then.
    + eapply triple_weaken;
        [apply (determine_and_execute_trade_triple s0 P (fun _ => True))
        | | |]; try now intros.
      exact Htrade.
    + intros _. apply triple_emit; [apply Hinfo | exact Logic.I].
  - intros e _. apply triple_emit; [apply Herror | exact Logic.I].
Qed.

Lemma arbitrage_task_resumed_adds d w :
  s0 = set_dex_price d (self w) ->
  exists delta,
    effects (arbitrage_task_resumed params d w).2
      = effects w ++ Info "DEX Price" :: delta /\
    Forall P delta.
Proof.
  intros Hs. rewrite arbitrage_task_resumed_stores.
  destruct (after_quote_adds (quote_stored d w)) as (_ & (delta & Hd & HP) & _).
  { now rewrite Hs. }
  exists delta. split; [|exact HP].
  rewrite Hd. cbn [quote_stored effects]. now rewrite <- app_assoc.
Qed.

End AfterQuote.

(** After its quote the task asks for no other quote, and submits only
    on the side decided with that quote. *)
Lemma arbitrage_task_resumed_decides params d w :
  exists delta,
    effects (arbitrage_task_resumed params d w).2
      = effects w ++ Info "DEX Price" :: delta /\
    Forall (fun e => is_quote_request e = false /\
                     submission_allowed (set_dex_price d (self w)) e) delta.
Proof.
  apply (arbitrage_task_resumed_adds (set_dex_price d (self w)));
    try (intros; split; [reflexivity | exact Logic.I]); [|reflexivity].
  intros deviation side a Hdev Hdir Ha.
  split; [reflexivity|]. split; [exact Ha|]. eauto.
Qed.

End ResumeFacts.

(** * The claims *)

Import Dec Flt Py Strategy.

(** ** C1: the trade direction *)

(** Where the configured threshold and the binary64 number the code
    compares with agree about a deviation, the decision is the one the
    specification names: with a nonzero oracle price (the deviation is
    defined) and a non-negative threshold, no trade whenever |deviation| is
    at most both, SELL whenever the deviation exceeds both, BUY whenever
    it is below the negation of both. *)
Theorem calculate_trade_direction_thresholds (w : World) (deviation : Decimal) :
  deviation_of (self w) = inr deviation ->
  (0 <= value (minimum_profitability (self w)))%Q ->
  ((Qabs (value deviation) <= value (minimum_profitability (self w)))%Q ->
   at_most (Qabs (value deviation)) (threshold_of (self w)) ->
   (calculate_trade_direction w).1 = Done None) /\
  ((value (minimum_profitability (self w)) < value deviation)%Q ->
   above (value deviation) (threshold_of (self w)) ->
   (calculate_trade_direction w).1 = Done (Some SELL)) /\
  ((value deviation < - value (minimum_profitability (self w)))%Q ->
   above (- value deviation) (threshold_of (self w)) ->
   (calculate_trade_direction w).1 = Done (Some BUY)).
Proof.
  intros Hdev Hmp.
  pose proof (StrategyFacts.deviation_digits _ _ Hdev) as Hdig.
  pose proof (DecBounds.value_abs deviation Hdig) as Habs.
  rewrite (StrategyFacts.calculate_trade_direction_result w deviation Hdev).
  repeat split.
  - intros _ Hle.
    assert (F : dec_gt (abs deviation) (threshold_of (self w)) = false).
    { apply FltFacts.dec_gt_at_most. destruct (threshold_of (self w)); cbn [at_most above] in *;
        [rewrite Habs|]; assumption. }
    now rewrite F.
  - intros Hgt Hfl.
    assert (Hpos : (0 < value deviation)%Q) by lra.
    assert (T : dec_gt (abs deviation) (threshold_of (self w)) = true).
    { apply FltFacts.dec_gt_above. destruct (threshold_of (self w)); cbn [at_most above] in *;
        [rewrite Habs, Qabs_pos by lra|]; assumption. }
    rewrite T. apply DecBounds.gtb_zero in Hpos. now rewrite Hpos.
  - intros Hlt Hfl.
    assert (Hneg : (value deviation < 0)%Q) by lra.
    assert (T : dec_gt (abs deviation) (threshold_of (self w)) = true).
    { apply FltFacts.dec_gt_above. destruct (threshold_of (self w)); cbn [at_most above] in *;
        [rewrite Habs, Qabs_neg by lra|]; assumption. }
    rewrite T.
    destruct (gtb deviation (of_int 0)) eqn:G; [|reflexivity].
    apply DecBounds.gtb_zero in G. lra.
Qed.

(** The shipped strategy at scenario A of the specification: oracle
    0.0002947, venue quote 0.00032, threshold 0.0005. *)
Lemma calculate_trade_direction_thresholds_witness :
  (calculate_trade_direction
     (world_of (strategy_with (mkDecimal 2947 (-7)) (mkDecimal 32 (-5))
                              (mkDecimal 5 (-4))))).1 = Done (Some SELL).
Proof.
  refine (proj1 (proj2 (calculate_trade_direction_thresholds
            (world_of (strategy_with (mkDecimal 2947 (-7)) (mkDecimal 32 (-5))
                                     (mkDecimal 5 (-4))))
            (mkDecimal 8585001696640651510010179844 (-29)) _ _)) _ _).
  - vm_compute. reflexivity.
  - vm_compute. discriminate.
  - vm_compute. reflexivity.
  - vm_compute. reflexivity.
Defined.

(** C1 fails on the code.  The test is
    [abs(deviation) > float(self.minimum_profitability)]: the deviation is
    compared with the binary64 number nearest to the threshold, not with
    the threshold.  With the shipped constants (threshold 0.0005, whose
    binary64 rendering lies above it, and the oracle price that
    [update_api_price] stores) and the venue quote
    0.0002948544147117764793124 the deviation exceeds the threshold and the
    code answers no trade, not SELL.  With threshold 0.3, whose binary64
    rendering lies below it, and oracle price 1, the deviation at venue
    price 1.3 equals the threshold and the code answers SELL, and at venue
    price 0.7 it equals the negated threshold and the code answers BUY,
    not no trade. *)
Theorem calculate_trade_direction_misses_threshold :
  (let s := strategy_with api_price_value
              (mkDecimal 2948544147117764793124 (-25)) (mkDecimal 5 (-4)) in
   deviation_of s = inr (mkDecimal 5000000000000000000546301433 (-31)) /\
   (value (minimum_profitability s)
      < value (mkDecimal 5000000000000000000546301433 (-31)))%Q /\
   (calculate_trade_direction (world_of s)).1 = Done None) /\
  (let s := strategy_with (of_int 1) (mkDecimal 13 (-1)) (mkDecimal 3 (-1)) in
   deviation_of s = inr (mkDecimal 3 (-1)) /\
   (Qabs (value (mkDecimal 3 (-1))) <= value (minimum_profitability s))%Q /\
   (calculate_trade_direction (world_of s)).1 = Done (Some SELL)) /\
  (let s := strategy_with (of_int 1) (mkDecimal 7 (-1)) (mkDecimal 3 (-1)) in
   deviation_of s = inr (mkDecimal (-3) (-1)) /\
   (Qabs (value (mkDecimal (-3) (-1))) <= value (minimum_profitability s))%Q /\
   (calculate_trade_direction (world_of s)).1 = Done (Some BUY)).
Proof.
  split; [|split].
  - split; [vm_compute; reflexivity|]. split; vm_compute; reflexivity.
  - split; [vm_compute; reflexivity|].
    split; [vm_compute; discriminate | vm_compute; reflexivity].
  - split; [vm_compute; reflexivity|].
    split; [vm_compute; discriminate | vm_compute; reflexivity].
Qed.

(** ** C3: the limit price *)




(** Two cycles that overlap, as the cleared guard allows.  The first task
    fetches the quote 0.00032, decides SELL and waits for the balances;
    meanwhile the second task fetches the quote 0.0002 and stores it; when
    the first task comes back, its trade is priced from the quote of the
    second: 0.0002 * 0.99 = 0.000198, not 0.00032 * 0.99. *)
Lemma overlapping_cycles_price_from_later_quote :
  let params :=
    mkTradeParams "ethereum" "mainnet" "balancer" "WETH" "DAI" (Some "0xW") in
  let first :=
    arbitrage_task
      (mkWorld (strategy_with (mkDecimal 2947 (-7)) (of_int 0)
                              (mkDecimal 5 (-4)))
               [wallet_entry "ethereum" "balancer" "mainnet" "0xW"]
               [price_reply (mkDecimal 32 (-5))] [] O) in
  let second :=
    arbitrage_task
      (mkWorld (self first.2) (gateway_connections_conf first.2)
               [price_reply (mkDecimal 2 (-4))] (effects first.2) O) in
  first.1 = Blocked /\
  dex_price (self first.2) = mkDecimal 32 (-5) /\
  last (effects first.2) = Some (Request (balance_request params)) /\
  direction_of (self first.2) (mkDecimal 8585001696640651510010179844 (-29))
    = Some SELL /\
  second.1 = Blocked /\
  dex_price (self second.2) = mkDecimal 2 (-4) /\
  forall w,
    self w = self second.2 ->
    exists delta,
      effects (submit_at_limit_price params SELL w).2 =
        effects w ++
        Info "Executing trade" ::
        Request (amm_trade "ethereum" "mainnet" "balancer" (Some "0xW")
                   "WETH" "DAI" SELL (mkDecimal 1 0) (mkDecimal 198 (-6)))
        :: delta.
Proof.
  cbv zeta.
  split; [vm_compute; reflexivity|]. split; [vm_compute; reflexivity|].
  split; [vm_compute; reflexivity|]. split; [vm_compute; reflexivity|].
  split; [vm_compute; reflexivity|]. split; [vm_compute; reflexivity|].
  intros w Hw.
  destruct (SubmitFacts.submit_at_limit_price_sends
              (mkTradeParams "ethereum" "mainnet" "balancer" "WETH" "DAI"
                             (Some "0xW")) SELL w) as (delta & Hd & _).
  exists delta. rewrite Hd. unfold trade_request. rewrite Hw. reflexivity.
Qed.

(** ** C4: the polling loop and the status codes *)

(** C4.  The loop polls on (sleeps, then queries again) through replies
    whose status is -1, 0 or 2 and stops at the first reply with another
    status, after one query per reply: on status 1 it reports the trade
    executed, on any other status it reports "Unknown txStatus"; the
    replies after that one are left untouched.  In particular a status 1
    or 5 on the first poll ends the loop after exactly one query. *)
Theorem poll_transaction_stops_at_terminal_status
    (chain network : string) (tx_hash : jval) (w : World)
    (pendings : list reply) (data : gmap string jval) (rest : list reply) :
  replies w = pendings ++ Returns data :: rest ->
  Forall (fun r => reply_pending r = true) pendings ->
  status_pending (data !! "txStatus") = false ->
  poll_transaction chain network tx_hash w =
    (Done tt,
     mkWorld (self w) (gateway_connections_conf w) rest
       (effects w ++ Info "Starting poll_transaction..." ::
          concat (map (fun _ => pending_turn chain network tx_hash
                                  (task_cooldown (self w))) pendings) ++
          [Info "Polling transaction status";
           Request (get_transaction_status chain network tx_hash)] ++
          (if status_is (data !! "txStatus") 1
           then [Info "Trade has been executed successfully."]
           else [Info "Unknown txStatus"; Info "poll_data"]))
       (scheduled w)) /\
  length (filter is_status_query
            (polling_effects chain network tx_hash (task_cooldown (self w))
                             pendings (Returns data))) = S (length pendings) /\
  length (filter is_sleep
            (polling_effects chain network tx_hash (task_cooldown (self w))
                             pendings (Returns data))) = length pendings /\
  (forall d z, d !! "txStatus" = Some (JInt z) ->
     (reply_pending (Returns d) = true <-> z = -1 \/ z = 0 \/ z = 2)).
Proof.
  intros Hr Hp Hf. split; [|split; [|split]].
  - rewrite (PollFacts.poll_transaction_run chain network tx_hash w pendings
               (Returns data) rest Hr Hp Hf).
    reflexivity.
  - apply PollCount.polling_effects_queries.
  - apply PollCount.polling_effects_sleeps.
  - intros d z Hd. cbn. rewrite Hd. apply PollFacts.status_pending_codes.
Qed.

(** One pending reply, then the unrecognised status 5. *)
Lemma poll_transaction_stops_at_terminal_status_witness :
  replies (poll_transaction "ethereum" "mainnet" (JStr "0xdead")
             (world_with_replies
                [status_reply 0; status_reply 5; status_reply 1])).2
  = [status_reply 1].
Proof.
  assert (H : Forall (fun r => reply_pending r = true) [status_reply 0])
    by (constructor; [reflexivity | constructor]).
  rewrite (proj1 (poll_transaction_stops_at_terminal_status
                    "ethereum" "mainnet" (JStr "0xdead")
                    (world_with_replies
                       [status_reply 0; status_reply 5; status_reply 1])
                    [status_reply 0] {["txStatus" := JInt 5]} [status_reply 1]
                    eq_refl H eq_refl)).
  reflexivity.
Defined.

(** ** C8: a transport error while polling *)

(** C8.  When a status query raises, on whichever turn, the loop ends on
    that turn: the error is reported, nothing is queried after it and the
    later replies are left untouched. *)
Theorem poll_transaction_stops_at_transport_error
    (chain network : string) (tx_hash : jval) (w : World)
    (pendings : list reply) (msg : string) (rest : list reply) :
  replies w = pendings ++ Raises msg :: rest ->
  Forall (fun r => reply_pending r = true) pendings ->
  poll_transaction chain network tx_hash w =
    (Done tt,
     mkWorld (self w) (gateway_connections_conf w) rest
       (effects w ++ Info "Starting poll_transaction..." ::
          concat (map (fun _ => pending_turn chain network tx_hash
                                  (task_cooldown (self w))) pendings) ++
          [Info "Polling transaction status";
           Request (get_transaction_status chain network tx_hash);
           Error "Error polling transaction" (GatewayError msg)])
       (scheduled w)) /\
  length (filter is_status_query
            (polling_effects chain network tx_hash (task_cooldown (self w))
                             pendings (Raises msg))) = S (length pendings).
Proof.
  intros Hr Hp. split.
  - rewrite (PollFacts.poll_transaction_run chain network tx_hash w pendings
               (Raises msg) rest Hr Hp eq_refl).
    reflexivity.
  - apply PollCount.polling_effects_queries.
Qed.

(** Two transport errors in a row: the loop ends at the first. *)
Lemma poll_transaction_stops_at_transport_error_witness :
  replies (poll_transaction "ethereum" "mainnet" (JStr "0xdead")
             (world_with_replies
                [status_reply 0; Raises "timeout"; Raises "timeout"])).2
  = [Raises "timeout"].
Proof.
  assert (H : Forall (fun r => reply_pending r = true) [status_reply 0])
    by (constructor; [reflexivity | constructor]).
  rewrite (proj1 (poll_transaction_stops_at_transport_error
                    "ethereum" "mainnet" (JStr "0xdead")
                    (world_with_replies
                       [status_reply 0; Raises "timeout"; Raises "timeout"])
                    [status_reply 0] "timeout" [Raises "timeout"]
                    eq_refl H)).
  reflexivity.
Defined.

(** ** C6: errors stop at the cycle boundary *)

(** C6.  Whatever the gateway replies and whatever the configuration, no
    exception leaves [arbitrage_task], [execute_trade] or [on_tick]: the
    task ends normally or stays suspended at an await.  An exception raised
    in the task's [try] block is logged as "Error in arbitrage_task" and one
    raised in the trade's [try] block as "Error executing trade", and the
    method then returns normally. *)
Theorem cycle_errors_are_caught (w : World) :
  (forall e, (arbitrage_task w).1 <> Raised e) /\
  (forall e w', arbitrage_task_body w = (Raised e, w') ->
     arbitrage_task w = (Done tt, (error "Error in arbitrage_task" e w').2)) /\
  (forall params trade_type limit_price e,
     (execute_trade params trade_type limit_price w).1 <> Raised e) /\
  (forall params trade_type limit_price e w',
     execute_trade_body params trade_type limit_price
                        (info "Executing trade" w).2 = (Raised e, w') ->
     execute_trade params trade_type limit_price w =
     (Done tt, (error "Error executing trade" e w').2)) /\
  (on_tick w).1 = Done tt.
Proof.
  split; [|split; [|split; [|split]]].
  - apply TickFacts.arbitrage_task_never_raises.
  - intros e w' H. unfold arbitrage_task, try_except. now rewrite H.
  - intros. apply TickFacts.execute_trade_never_raises.
  - intros params trade_type limit_price e w' H.
    unfold execute_trade, try_except, mbind, Coro_bind.
    cbn in *. now rewrite H.
  - now rewrite TickFacts.on_tick_run.
Qed.

(** The gateway fails on the quote: the cycle logs the error and ends. *)
Lemma cycle_errors_are_caught_witness :
  arbitrage_task (world_with_replies [Raises "connection refused"]) =
  (Done tt,
   mkWorld (new 2) [] []
     [Request (get_price "ethereum" "mainnet" "balancer" "WETH" "DAI"
                 (mkDecimal 1 0) BUY);
      Error "Error in arbitrage_task" (GatewayError "connection refused")]
     O).
Proof.
  rewrite (proj1 (proj2 (cycle_errors_are_caught
                           (world_with_replies [Raises "connection refused"])))
             (GatewayError "connection refused")
             (mkWorld (new 2) [] []
                [Request (get_price "ethereum" "mainnet" "balancer" "WETH" "DAI"
                            (mkDecimal 1 0) BUY)] O)
             eq_refl).
  reflexivity.
Defined.

(** ** C9: the quote is asked on the BUY side *)

(** C9.  [fetch_dex_price] sends exactly one request, a quote for the
    configured order amount on the BUY side; and among everything a run of
    the task sends, whatever direction it decides, every quote request is
    for that amount on the BUY side.  A task whose two configuration
    strings split into a pair and a venue does send that quote, as the
    first thing it does, and sends no other quote; when the reply carries a
    price the task goes on from there with it; and from there every trade
    it submits is on the side decided with that price, be it BUY or
    SELL. *)
Theorem venue_quote_is_buy_side (params : TradeParams) (w : World) :
  effects (fetch_dex_price params w).2 =
    effects w ++
    [Request (get_price (chain params) (network params) (connector params)
                (base params) (quote params) (order_amount (self w)) BUY)] /\
  (exists delta,
     effects (arbitrage_task w).2 = effects w ++ delta /\
     Forall (quotes_buy_side (self w)) delta) /\
  (forall base quote connector chain network,
     split (Ascii.ascii_of_nat 45) (trading_pair (self w)) = [base; quote] ->
     split (Ascii.ascii_of_nat 95) (connector_chain_network (self w))
       = [connector; chain; network] ->
     (exists delta,
        effects (arbitrage_task w).2 =
          effects w ++
          Request (get_price chain network connector base quote
                             (order_amount (self w)) BUY) :: delta /\
        Forall (fun e => is_quote_request e = false) delta) /\
     (forall r rest d,
        replies w = r :: rest ->
        quote_of r = inr d ->
        arbitrage_task w =
        arbitrage_task_resumed
          (mkTradeParams chain network connector base quote None) d
          (requested (get_price chain network connector base quote
                                (order_amount (self w)) BUY) rest w))) /\
  (forall d,
     exists delta,
       effects (arbitrage_task_resumed params d w).2
         = effects w ++ Info "DEX Price" :: delta /\
       Forall (submission_allowed (set_dex_price d (self w))) delta).
Proof.
  split; [|split; [|split]].
  - unfold fetch_dex_price, mbind, Coro_bind, get_self, await. cbn.
    destruct (replies w) as [|[data|msg] rest]; cbn; [reflexivity| |reflexivity].
    unfold getitem. destruct (data !! "price") as [[| | |]|]; reflexivity.
  - assert (T : triple (same_but_dex_price (self w))
                       (quotes_buy_side (self w))
                       (fun _ => False) (fun _ => True) arbitrage_task).
    { apply (TaskFacts.arbitrage_task_triple _ _ (fun _ => True)); now intros. }
    destruct (T w (TaskFacts.same_but_dex_price_refl _)) as (_ & Hd & _).
    exact Hd.
  - intros base quote connector chain network Hpair Hccn. split.
    + destruct (replies w) as [|r rest] eqn:Hr.
      * exists []. split; [|constructor].
        now rewrite (ResumeFacts.arbitrage_task_waits
                       w base quote connector chain network Hpair Hccn Hr).
      * destruct (quote_of r) as [e|d] eqn:Hq.
        -- exists [Error "Error in arbitrage_task" e].
           split; [|constructor; [reflexivity | constructor]].
           rewrite (ResumeFacts.arbitrage_task_failed_quote
                      w base quote connector chain network Hpair Hccn
                      r rest e Hr Hq).
           cbn. now rewrite <- app_assoc.
        -- rewrite (ResumeFacts.arbitrage_task_resumes
                      w base quote connector chain network Hpair Hccn
                      r rest d Hr Hq).
           match goal with
           | |- context [arbitrage_task_resumed ?p d ?w1] =>
               destruct (ResumeFacts.arbitrage_task_resumed_decides p d w1)
                 as (delta & Hd & HP)
           end.
           exists (Info "DEX Price" :: delta). split.
           ++ rewrite Hd. cbn [requested effects quote_request].
              now rewrite <- app_assoc.
           ++ constructor; [reflexivity|].
              eapply Forall_impl; [exact HP|]. now intros e [He _].
    + intros r rest d Hr Hq.
      exact (ResumeFacts.arbitrage_task_resumes
               w base quote connector chain network Hpair Hccn r rest d Hr Hq).
  - intros d.
    destruct (ResumeFacts.arbitrage_task_resumed_decides params d w)
      as (delta & Hd & HP).
    exists delta. split; [exact Hd|].
    eapply Forall_impl; [exact HP|]. now intros e [_ He].
Qed.

(** The shipped strategy with no reply yet: the quote is out, on the BUY
    side, and the task waits. *)
Lemma venue_quote_is_buy_side_witness :
  exists delta,
    effects (arbitrage_task (world_with_replies [])).2 =
      [] ++
      Request (get_price "ethereum" "mainnet" "balancer" "WETH" "DAI"
                         (mkDecimal 1 0) BUY) :: delta /\
    Forall (fun e => is_quote_request e = false) delta.
Proof.
  exact (proj1 (proj1 (proj2 (proj2
           (venue_quote_is_buy_side
              (mkTradeParams "ethereum" "mainnet" "balancer" "WETH" "DAI" None)
              (world_with_replies []))))
           "WETH" "DAI" "balancer" "ethereum" "mainnet" eq_refl eq_refl)).
Defined.

(** ** C7: no submission without a direction and a wallet *)

(** C7.  Starting with the address unset: every trade that
    [determine_and_execute_trade] submits carries a non-empty wallet
    address and the side (BUY or SELL) that the direction evaluation
    returned; the address of the parameters is set only if a direction was
    returned; on a no-trade decision the method ends at once with the
    parameters untouched and nothing submitted; and when the wallet lookup
    yields no address (None or empty) the method ends there with nothing
    submitted. *)
Theorem submission_needs_direction_and_wallet (params : TradeParams) (w : World) :
  address params = None ->
  (exists delta,
     effects (determine_and_execute_trade params w).2 = effects w ++ delta /\
     Forall (submission_allowed (self w)) delta) /\
  (forall params',
     (determine_and_execute_trade params w).1 = Done params' ->
     address params' <> None ->
     exists deviation side,
       deviation_of (self w) = inr deviation /\
       direction_of (self w) deviation = Some side) /\
  (forall w1,
     calculate_trade_direction w = (Done None, w1) ->
     determine_and_execute_trade params w = (Done params, w1) /\
     exists delta, effects w1 = effects w ++ delta /\
                   Forall (fun e => is_submission e = false) delta) /\
  (forall side w1 a w2,
     calculate_trade_direction w = (Done (Some side), w1) ->
     get_wallet_address (chain params) (network params) (connector params)
                        (info "Profitable trade detected" w1).2 = (Done a, w2) ->
     falsy a = true ->
     determine_and_execute_trade params w = (Done (with_address params a), w2) /\
     exists delta, effects w2 = effects w ++ delta /\
                   Forall (fun e => is_submission e = false) delta).
Proof.
  intros Hnone.
  assert (T : triple (eq (self w)) (submission_allowed (self w))
                (fun _ => True)
                (fun params' =>
                   exists deviation, deviation_of (self w) = inr deviation /\
                     match direction_of (self w) deviation with
                     | None => params' = params
                     | Some _ => exists a, params' = with_address params a
                     end)
                (determine_and_execute_trade params)).
  { apply MethodFacts.determine_and_execute_trade_triple;
      try (now intros). intros; cbn; eauto. }
  destruct (T w eq_refl) as (_ & Hd & Hr).
  split; [exact Hd|]. split; [|split].
  - intros params' Hres Haddr. rewrite Hres in Hr.
    destruct Hr as (deviation & Hdev & Hdir).
    destruct (direction_of (self w) deviation) as [side|] eqn:E; [eauto|].
    subst params'. contradiction.
  - intros w1 Hcalc.
    pose proof (SubmissionFacts.calculate_trade_direction_quiet w) as (_ & Hq).
    rewrite Hcalc in Hq. split; [|exact Hq].
    unfold determine_and_execute_trade, mbind, Coro_bind. now rewrite Hcalc.
  - intros side w1 a w2 Hcalc Hwallet Hfalsy.
    pose proof (SubmissionFacts.calculate_trade_direction_quiet w) as (_ & d1 & Hd1 & HP1).
    rewrite Hcalc in Hd1. cbn in Hd1.
    pose proof (SubmissionFacts.get_wallet_address_quiet (chain params)
                  (network params) (connector params)
                  (info "Profitable trade detected" w1).2) as (d2 & Hd2 & HP2).
    rewrite Hwallet in Hd2. cbn in Hd2.
    split.
    + unfold determine_and_execute_trade, mbind, Coro_bind. rewrite Hcalc.
      change (info "Profitable trade detected" w1)
        with (Done tt, (info "Profitable trade detected" w1).2).
      cbv iota beta. rewrite Hwallet. cbn. now rewrite Hfalsy.
    + exists (d1 ++ [Info "Profitable trade detected"] ++ d2).
      rewrite Hd2, Hd1, <- !app_assoc. split; [reflexivity|].
      apply Forall_app; split; [exact HP1|].
      apply Forall_app; split; [|exact HP2]. now repeat constructor.
Qed.

(** Scenario D: a profitable quote but no wallet configured. *)
Lemma submission_needs_direction_and_wallet_witness :
  exists delta,
    effects (determine_and_execute_trade
               (mkTradeParams "ethereum" "mainnet" "balancer" "WETH" "DAI" None)
               (world_of (strategy_with (mkDecimal 2947 (-7)) (mkDecimal 32 (-5))
                                        (mkDecimal 5 (-4))))).2
    = effects (world_of (strategy_with (mkDecimal 2947 (-7)) (mkDecimal 32 (-5))
                                       (mkDecimal 5 (-4)))) ++ delta /\
    Forall (submission_allowed
              (self (world_of (strategy_with (mkDecimal 2947 (-7))
                                 (mkDecimal 32 (-5)) (mkDecimal 5 (-4))))))
           delta.
Proof.
  exact (proj1 (submission_needs_direction_and_wallet
                  (mkTradeParams "ethereum" "mainnet" "balancer" "WETH" "DAI" None)
                  (world_of (strategy_with (mkDecimal 2947 (-7)) (mkDecimal 32 (-5))
                                           (mkDecimal 5 (-4))))
                  eq_refl)).
Defined.

Import Loop.

(** ** C10: the oracle price is nonzero when the task divides *)

(** C10.  The constructor leaves the oracle price at 0; yet in every run
    of ticks and task runs from the constructed strategy, whenever a task
    is waiting to run the oracle price is the nonzero constant stored by
    [update_api_price], so the deviation is defined for every venue price,
    and no division by zero is ever logged. *)
Theorem oracle_price_nonzero_when_dividing
    (cd : Z) (conf : list (gmap string string)) (rs : list reply)
    (evs : list event) :
  api_price (new cd) = of_int 0 /\
  (scheduled (run (boot cd conf rs) evs) <> O ->
   api_price (self (run (boot cd conf rs) evs)) = api_price_value /\
   coefficient (api_price (self (run (boot cd conf rs) evs))) <> 0 /\
   forall dex,
     exists deviation,
       deviation_of (set_dex_price dex (self (run (boot cd conf rs) evs)))
       = inr deviation) /\
  Forall no_division_error (effects (run (boot cd conf rs) evs)).
Proof.
  destruct (LoopFacts.oracle_ready_run cd conf rs evs) as [Hapi Heff].
  split; [reflexivity|]. split; [|exact Heff].
  intros Hs. destruct Hapi as [Hapi|]; [|contradiction].
  split; [exact Hapi|]. split.
  - rewrite Hapi. apply LoopFacts.api_price_value_nonzero.
  - intros dex. apply LoopFacts.deviation_defined. cbn. rewrite Hapi.
    apply LoopFacts.api_price_value_nonzero.
Qed.

(** A tick, then the task it launched. *)
Lemma oracle_price_nonzero_when_dividing_witness :
  api_price (self (run (boot 2 [] [price_reply (mkDecimal 32 (-5))]) [Tick]))
  = api_price_value.
Proof.
  refine (proj1 (proj1 (proj2 (oracle_price_nonzero_when_dividing
                                 2 [] [price_reply (mkDecimal 32 (-5))] [Tick])) _)).
  vm_compute. discriminate.
Defined.

(** ** C2: the re-entrancy guard *)

(** C2 fails on the code.  [on_tick] clears [on_going_task] in the same
    call that launches the task, before the task has run at all: after any
    number of ticks in a row the guard is clear and that many tasks are
    waiting.  Two ticks before the first task resolves run the pipeline
    twice (two quote requests). *)
Theorem guard_is_cleared_at_launch
    (cd : Z) (conf : list (gmap string string)) (rs : list reply) (n : nat) :
  scheduled (run (boot cd conf rs) (repeat Tick n)) = n /\
  on_going_task (self (run (boot cd conf rs) (repeat Tick n))) = false /\
  length (filter is_quote_request
            (effects (run (boot 2 [] [price_reply (mkDecimal 2947 (-7));
                                      price_reply (mkDecimal 2947 (-7))])
                          [Tick; Tick; RunTask; RunTask]))) = 2%nat.
Proof.
  destruct (LoopFacts.ticks_schedule n (boot cd conf rs) eq_refl) as [A B].
  split; [cbn in A; lia|]. split; [exact B|].
  vm_compute. reflexivity.
Qed.

(** ** C5: binary floating point in the profitability test *)

(** C5 fails on the code.  The threshold operand of the comparison is the
    binary64 number 4611686018427388 * 2^-63, which is above the configured
    0.0005; the oracle price is the expansion of the binary64 nearest to the
    numeral written in the source, not that numeral; and with that oracle
    price and the venue quote 0.0002948544147117764793124 the deviation
    exceeds 0.0005 as a Decimal while the code, comparing with the float,
    answers no trade. *)
Theorem profitability_test_uses_binary_float :
  threshold_of (new 2) = Flt.Finite 4611686018427388 (-63) /\
  (value (minimum_profitability (new 2))
     < inject_Z 4611686018427388 * Flt.pow2 (-63))%Q /\
  api_price_constant = Some api_price_value /\
  ~ (value api_price_value == value api_price_literal)%Q /\
  (let s := strategy_with api_price_value
              (mkDecimal 2948544147117764793124 (-25)) (mkDecimal 5 (-4)) in
   deviation_of s = inr (mkDecimal 5000000000000000000546301433 (-31)) /\
   gtb (abs (mkDecimal 5000000000000000000546301433 (-31)))
       (minimum_profitability s) = true /\
   (calculate_trade_direction (world_of s)).1 = Done None).
Proof.
  split; [vm_compute; reflexivity|].
  split; [vm_compute; reflexivity|].
  split; [vm_compute; reflexivity|].
  split; [vm_compute; discriminate|].
  repeat split; vm_compute; reflexivity.
Qed.

(** * Further properties of the script *)

(** ** The wallet lookup *)

(** X1.  On a settings file whose entries can be read, [get_wallet_address]
    answers from the first entry that matches chain, connector and network:
    its "wallet_address", or a [KeyError] if that entry has none.  With no
    entry at all, or none that matches, it notifies the user and answers
    [None].  It sends nothing to the gateway and uses up no reply. *)
Theorem get_wallet_address_first_match
    (chain network connector : string) (w : World) :
  Forall (wallet_readable chain connector) (gateway_connections_conf w) ->
  get_wallet_address chain network connector w =
  match gateway_connections_conf w with
  | [] => (Done None, notified "No existing wallet." w)
  | _ :: _ =>
      match List.filter (wallet_matches chain network connector)
                        (gateway_connections_conf w) with
      | [] => (Done None, notified "No wallet found." w)
      | w0 :: _ =>
          match w0 !! "wallet_address" with
          | Some a => (Done (Some a), w)
          | None => (Raised (KeyError "wallet_address"), w)
          end
      end
  end.
Proof.
  intros Hall. unfold get_wallet_address, mbind, Coro_bind, get_world.
  cbv zeta. destruct (gateway_connections_conf w) as [|e conf] eqn:Hconf.
  - reflexivity.
  - cbn [length Nat.ltb Nat.leb].
    rewrite (WalletFacts.matching_wallets_filter _ _ _ _ w Hall).
    destruct (List.filter _ _) as [|w0 ?]; [reflexivity|].
    unfold getitem. destruct (w0 !! "wallet_address"); reflexivity.
Qed.

(** The shipped lookup against one wallet on another chain and one that
    matches. *)
Lemma get_wallet_address_first_match_witness :
  get_wallet_address "ethereum" "mainnet" "balancer"
    (mkWorld (new 2)
       [wallet_entry "polygon" "balancer" "mainnet" "0x01";
        wallet_entry "ethereum" "balancer" "mainnet" "0x02";
        wallet_entry "ethereum" "balancer" "mainnet" "0x03"] [] [] O)
  = (Done (Some "0x02"),
     mkWorld (new 2)
       [wallet_entry "polygon" "balancer" "mainnet" "0x01";
        wallet_entry "ethereum" "balancer" "mainnet" "0x02";
        wallet_entry "ethereum" "balancer" "mainnet" "0x03"] [] [] O).
Proof.
  rewrite get_wallet_address_first_match; [reflexivity|].
  repeat constructor; vm_compute; eauto; intros; eauto; discriminate.
Defined.



(** ** The trade direction *)

(** X3.  Where the deviation is defined, the direction evaluation answers
    no trade exactly when |deviation| is at most the binary64 threshold,
    SELL exactly when |deviation| is above it and the deviation is
    positive, and BUY exactly when |deviation| is above it and the
    deviation is zero or negative. *)
Theorem calculate_trade_direction_exact (w : World) (deviation : Decimal) :
  deviation_of (self w) = inr deviation ->
  ((calculate_trade_direction w).1 = Done None <->
   at_most (Qabs (value deviation)) (threshold_of (self w))) /\
  ((calculate_trade_direction w).1 = Done (Some SELL) <->
   above (Qabs (value deviation)) (threshold_of (self w)) /\
   (0 < value deviation)%Q) /\
  ((calculate_trade_direction w).1 = Done (Some BUY) <->
   above (Qabs (value deviation)) (threshold_of (self w)) /\
   (value deviation <= 0)%Q).
Proof.
  intros Hdev.
  pose proof (StrategyFacts.deviation_digits _ _ Hdev) as Hdig.
  pose proof (DecBounds.value_abs deviation Hdig) as Habs.
  rewrite (StrategyFacts.calculate_trade_direction_result w deviation Hdev).
  assert (Hgt : dec_gt (abs deviation) (threshold_of (self w)) = true <->
                above (Qabs (value deviation)) (threshold_of (self w))).
  { rewrite FltFacts.dec_gt_above.
    destruct (threshold_of (self w)); cbn [above]; [now rewrite Habs | tauto]. }
  assert (Hle : dec_gt (abs deviation) (threshold_of (self w)) = false <->
                at_most (Qabs (value deviation)) (threshold_of (self w))).
  { rewrite FltFacts.dec_gt_at_most.
    destruct (threshold_of (self w)); cbn [at_most]; [now rewrite Habs | tauto]. }
  pose proof (DecBounds.gtb_zero deviation) as Hpos.
  assert (Hneg : gtb deviation (of_int 0) = false <-> (value deviation <= 0)%Q).
  { rewrite <- not_true_iff_false, Hpos. split.
    - apply Qnot_lt_le.
    - intros H P. exact (Qlt_not_le _ _ P H). }
  rewrite <- Hgt, <- Hle, <- Hpos, <- Hneg.
  destruct (dec_gt (abs deviation) (threshold_of (self w)));
    destruct (gtb deviation (of_int 0)); intuition congruence.
Qed.

(** Scenario B of the specification: oracle 0.0002947, venue 0.0002950. *)
Lemma calculate_trade_direction_exact_witness :
  (calculate_trade_direction
     (world_of (strategy_with (mkDecimal 2947 (-7)) (mkDecimal 2950 (-7))
                              (mkDecimal 5 (-4))))).1 = Done (Some SELL).
Proof.
  apply (proj1 (proj2 (calculate_trade_direction_exact
           (world_of (strategy_with (mkDecimal 2947 (-7)) (mkDecimal 2950 (-7))
                                    (mkDecimal 5 (-4))))
           (mkDecimal 1017984390906006107906345436 (-30)) eq_refl))).
  split; vm_compute; reflexivity.
Defined.

(** X4.  When the venue price equals the oracle price (and that price is
    not zero), no trade is decided, whatever non-negative threshold is
    configured. *)
Theorem equal_prices_decide_no_trade (w : World) :
  coefficient (api_price (self w)) <> 0 ->
  (value (dex_price (self w)) == value (api_price (self w)))%Q ->
  0 <= coefficient (minimum_profitability (self w)) ->
  (calculate_trade_direction w).1 = Done None.
Proof.
  intros Hapi Heq Hmp.
  pose proof (DecisionFacts.sub_equal_values _ _ Heq) as Hsub.
  pose proof (DecisionFacts.truediv_zero _ _ Hsub Hapi) as Hdev.
  fold (deviation_of (self w)) in Hdev.
  apply (proj1 (calculate_trade_direction_exact w _ Hdev)).
  assert (Hz : (Qabs (value (mkDecimal 0
                   (exponent (sub (dex_price (self w)) (api_price (self w)))
                    - exponent (api_price (self w))))) == 0)%Q).
  { unfold value. cbn [coefficient]. rewrite Qmult_0_l. reflexivity. }
  pose proof (DecisionFacts.at_most_zero_nonneg _
                (DecisionFacts.of_decimal_nonneg _ Hmp)) as H0.
  unfold threshold_of.
  destruct (of_decimal (minimum_profitability (self w))); cbn [at_most] in *;
    [now rewrite Hz | assumption].
Qed.

(** The same price written with different exponents, 0.00030 and 0.0003. *)
Lemma equal_prices_decide_no_trade_witness :
  (calculate_trade_direction
     (world_of (strategy_with (mkDecimal 3 (-4)) (mkDecimal 30 (-5))
                              (mkDecimal 5 (-4))))).1 = Done None.
Proof.
  apply equal_prices_decide_no_trade.
  - vm_compute. discriminate.
  - vm_compute. reflexivity.
  - vm_compute. discriminate.
Defined.

(** X5.  A task that comes back with its quote to a strategy object whose
    oracle price is zero (as [__init__] leaves it) ends at the division:
    the quote is stored and logged, the division signals (division by
    zero, or an undefined division when the quote is zero too), the signal
    is logged as "Error in arbitrage_task", and nothing is decided, looked
    up or sent. *)
Theorem zero_oracle_price_ends_cycle
    (params : TradeParams) (d : Decimal) (w : World) :
  coefficient (api_price (self w)) = 0 ->
  deviation_of (set_dex_price d (self w)) =
    inl (if coefficient (sub d (api_price (self w))) =? 0
         then DivisionUndefined else DivisionByZero) /\
  arbitrage_task_resumed params d w =
    (Done tt,
     logged_error "Error in arbitrage_task"
       (DecimalDivision
          (if coefficient (sub d (api_price (self w))) =? 0
           then DivisionUndefined else DivisionByZero))
       (quote_stored d w)).
Proof.
  intros Hz.
  assert (Hdev : deviation_of (set_dex_price d (self w)) =
                 inl (if coefficient (sub d (api_price (self w))) =? 0
                      then DivisionUndefined else DivisionByZero)).
  { unfold deviation_of, truediv. cbn [set_dex_price dex_price api_price].
    cbv zeta. now rewrite Hz. }
  split; [exact Hdev|].
  rewrite ResumeFacts.arbitrage_task_resumed_stores.
  unfold after_quote, try_except, determine_and_execute_trade.
  unfold mbind at 1, Coro_bind at 1. unfold mbind at 1, Coro_bind at 1.
  unfold calculate_trade_direction.
  unfold mbind at 1, Coro_bind at 1, get_self at 1. cbv iota beta.
  cbn [quote_stored self]. rewrite Hdev. reflexivity.
Qed.

(** The object as constructed and the quote 0.00032. *)
Lemma zero_oracle_price_ends_cycle_witness :
  arbitrage_task_resumed
    (mkTradeParams "ethereum" "mainnet" "balancer" "WETH" "DAI" None)
    (mkDecimal 32 (-5)) (world_with_replies []) =
  (Done tt,
   mkWorld (set_dex_price (mkDecimal 32 (-5)) (new 2)) [] []
     [Info "DEX Price";
      Error "Error in arbitrage_task" (DecimalDivision DivisionByZero)] O).
Proof.
  exact (proj2 (zero_oracle_price_ends_cycle
                  (mkTradeParams "ethereum" "mainnet" "balancer" "WETH" "DAI"
                                 None)
                  (mkDecimal 32 (-5)) (world_with_replies []) eq_refl)).
Defined.

(** ** The quote *)

(** X6.  When the quote fails because the gateway call raises, the reply
    has no "price" or the price is null, the cycle ends there: the error is
    logged as "Error in arbitrage_task", the quote request is the only
    thing sent, one reply is used up and the task leaves the strategy
    object, [dex_price] included, as it was. *)
Theorem failed_quote_ends_cycle
    (w : World) (base quote connector chain network : string)
    (r : reply) (rest : list reply) (e : exn) :
  split (Ascii.ascii_of_nat 45) (trading_pair (self w)) = [base; quote] ->
  split (Ascii.ascii_of_nat 95) (connector_chain_network (self w))
    = [connector; chain; network] ->
  replies w = r :: rest ->
  quote_failure r = Some e ->
  arbitrage_task w =
  (Done tt,
   logged_error "Error in arbitrage_task" e
     (requested (quote_request (self w) base quote connector chain network)
                rest w)).
Proof.
  intros Hpair Hccn Hr Hq.
  exact (ResumeFacts.arbitrage_task_failed_quote
           w base quote connector chain network Hpair Hccn r rest e Hr
           (ResumeFacts.quote_failure_fails r e Hq)).
Qed.

(** The shipped strategy and a gateway that is down. *)
Lemma failed_quote_ends_cycle_witness :
  arbitrage_task (world_with_replies [Raises "503"; Raises "503"]) =
  (Done tt,
   mkWorld (new 2) [] [Raises "503"]
     [Request (get_price "ethereum" "mainnet" "balancer" "WETH" "DAI"
                 (mkDecimal 1 0) BUY);
      Error "Error in arbitrage_task" (GatewayError "503")] O).
Proof.
  exact (failed_quote_ends_cycle
           (world_with_replies [Raises "503"; Raises "503"])
           "WETH" "DAI" "balancer" "ethereum" "mainnet"
           (Raises "503") [Raises "503"] (GatewayError "503")
           eq_refl eq_refl eq_refl eq_refl).
Defined.

(** X7.  When the quote arrives, the task stores it in [dex_price] and
    changes nothing else of the strategy object, whatever happens in the
    rest of the cycle; the quote request is the first thing it sends. *)
Theorem quote_is_stored
    (w : World) (base quote connector chain network : string)
    (r : reply) (rest : list reply) (d : Decimal) :
  split (Ascii.ascii_of_nat 45) (trading_pair (self w)) = [base; quote] ->
  split (Ascii.ascii_of_nat 95) (connector_chain_network (self w))
    = [connector; chain; network] ->
  replies w = r :: rest ->
  quote_of r = inr d ->
  self (arbitrage_task w).2 = set_dex_price d (self w) /\
  exists delta,
    effects (arbitrage_task w).2 =
    effects w ++
    Request (quote_request (self w) base quote connector chain network)
    :: Info "DEX Price" :: delta.
Proof.
  intros Hpair Hccn Hr Hq.
  set (params := mkTradeParams chain network connector base quote None).
  set (w3 := mkWorld (set_dex_price d (self w)) (gateway_connections_conf w)
               rest
               (effects w ++
                [Request (quote_request (self w) base quote connector chain
                                        network);
                 Info "DEX Price"]) (scheduled w)).
  assert (Hrun : arbitrage_task w = after_quote params w3).
  { unfold arbitrage_task, after_quote, try_except,
      arbitrage_task_body.
    unfold mbind at 1, Coro_bind at 1, get_self. cbv iota beta.
    rewrite Hpair. unfold mbind at 1, Coro_bind at 1.
    cbn [unpack2 mret Coro_ret]. cbv iota beta. rewrite Hccn.
    unfold mbind at 1, Coro_bind at 1. cbn [unpack3 mret Coro_ret].
    cbv iota beta zeta. unfold mbind at 1, Coro_bind at 1.
    rewrite (QuoteFacts.fetch_dex_price_run _ w r rest Hr), Hq.
    cbv iota beta. unfold mbind at 1, Coro_bind at 1.
    unfold update_self at 1. cbv iota beta.
    unfold mbind at 1, Coro_bind at 1. unfold info at 1, emit at 1.
    cbv iota beta. subst w3 params. unfold requested, set_self, quote_request.
    cbn [self gateway_connections_conf replies effects scheduled].
    rewrite <- app_assoc. reflexivity. }
  rewrite Hrun.
  destruct (QuoteFacts.after_quote_triple (self w3) params w3 eq_refl)
    as (Hs & (delta & Hd & _) & _).
  split; [now rewrite <- Hs|].
  exists delta. rewrite Hd. subst w3. cbn [effects].
  now rewrite <- app_assoc.
Qed.

(** The shipped strategy and a quote equal to its oracle price to seven
    digits: no trade follows, the quote is stored. *)
Lemma quote_is_stored_witness :
  self (arbitrage_task
          (world_with_replies [price_reply (mkDecimal 2947 (-7))])).2
  = set_dex_price (mkDecimal 2947 (-7)) (new 2).
Proof.
  exact (proj1 (quote_is_stored
                  (world_with_replies [price_reply (mkDecimal 2947 (-7))])
                  "WETH" "DAI" "balancer" "ethereum" "mainnet"
                  (price_reply (mkDecimal 2947 (-7))) [] (mkDecimal 2947 (-7))
                  eq_refl eq_refl eq_refl eq_refl)).
Defined.

(** X8.  A trading pair that does not hold exactly one "-", or a
    connector string that does not hold exactly two "_", makes the cycle
    end with a logged [ValueError] before anything is sent to the gateway:
    no reply is used up and nothing else changes. *)
Theorem misconfigured_names_end_cycle (w : World) :
  occurrences (Ascii.ascii_of_nat 45) (trading_pair (self w)) <> 1%nat \/
  occurrences (Ascii.ascii_of_nat 95) (connector_chain_network (self w))
    <> 2%nat ->
  arbitrage_task w =
  (Done tt, logged_error "Error in arbitrage_task" ValueError w).
Proof.
  intros Hbad.
  unfold arbitrage_task, try_except, arbitrage_task_body.
  unfold mbind at 1, Coro_bind at 1, get_self. cbv iota beta.
  unfold mbind at 1, Coro_bind at 1.
  destruct (Nat.eq_dec
              (occurrences (Ascii.ascii_of_nat 45) (trading_pair (self w))) 1%nat)
    as [Hone|Hne].
  - destruct (QuoteFacts.unpack2_returns
                (split (Ascii.ascii_of_nat 45) (trading_pair (self w))) w)
      as (a & b & Hl & Hu).
    { rewrite QuoteFacts.split_length. lia. }
    rewrite Hu. cbv iota beta. unfold mbind at 1, Coro_bind at 1.
    rewrite QuoteFacts.unpack3_raises; [reflexivity|].
    rewrite QuoteFacts.split_length. destruct Hbad; [contradiction | lia].
  - rewrite QuoteFacts.unpack2_raises; [reflexivity|].
    rewrite QuoteFacts.split_length. lia.
Qed.

(** A pair written with a slash. *)
Lemma misconfigured_names_end_cycle_witness :
  arbitrage_task
    (mkWorld (mkArbitrageBalancer "balancer_ethereum_mainnet" "WETH/DAI"
                (mkDecimal 1 0) (mkDecimal 1 (-2)) (mkDecimal 5 (-4)) 2 false
                (of_int 0) (of_int 0))
             [] [price_reply (mkDecimal 2947 (-7))] [] O) =
  (Done tt,
   mkWorld (mkArbitrageBalancer "balancer_ethereum_mainnet" "WETH/DAI"
              (mkDecimal 1 0) (mkDecimal 1 (-2)) (mkDecimal 5 (-4)) 2 false
              (of_int 0) (of_int 0))
           [] [price_reply (mkDecimal 2947 (-7))]
           [Error "Error in arbitrage_task" ValueError] O).
Proof.
  apply (misconfigured_names_end_cycle
           (mkWorld (mkArbitrageBalancer "balancer_ethereum_mainnet" "WETH/DAI"
                       (mkDecimal 1 0) (mkDecimal 1 (-2)) (mkDecimal 5 (-4)) 2
                       false (of_int 0) (of_int 0))
                    [] [price_reply (mkDecimal 2947 (-7))] [] O)).
  left. vm_compute. discriminate.
Defined.

(** ** The event loop *)

(** X9.  Whatever ticks and task runs came before, in whatever order and
    with whatever replies from the gateway, [on_going_task] is false between
    events: tasks never touch it and [on_tick] leaves it cleared.  So the
    next tick is never held back; it stores the oracle price and adds one
    more task to those waiting. *)
Theorem guard_never_holds_back_a_tick
    (cd : Z) (conf : list (gmap string string)) (rs : list reply)
    (evs : list event) :
  on_going_task (self (run (boot cd conf rs) evs)) = false /\
  scheduled (step (run (boot cd conf rs) evs) Tick)
    = S (scheduled (run (boot cd conf rs) evs)) /\
  api_price (self (step (run (boot cd conf rs) evs) Tick)) = api_price_value.
Proof.
  assert (Hg : on_going_task (self (run (boot cd conf rs) evs)) = false)
    by now apply GuardFacts.run_keeps_guard_clear.
  split; [exact Hg|]. cbn [step]. rewrite TickFacts.on_tick_run, Hg.
  now split.
Qed.

(** ** The limit prices *)

(** X10.  For a slippage buffer and a venue price that are not negative,
    the two limit prices enclose the venue price as rounded to the context
    precision: SELL limit <= quote <= BUY limit.  A quote of at most 28
    digits is enclosed as it is. *)
Theorem limit_prices_enclose_quote (dex slippage : Decimal) :
  (0 <= value dex)%Q ->
  (0 <= value slippage)%Q ->
  (value (limit_price_of SELL dex slippage) <= value (fix_ dex))%Q /\
  (value (fix_ dex) <= value (limit_price_of BUY dex slippage))%Q /\
  (Round.digits (coefficient dex) <= prec ->
   (value (limit_price_of SELL dex slippage) <= value dex)%Q /\
   (value dex <= value (limit_price_of BUY dex slippage))%Q).
Proof.
  intros Hdex Hs.
  pose proof (LimitFacts.value_one_plus slippage Hs) as Hp.
  pose proof (LimitFacts.value_one_minus slippage Hs) as Hm.
  assert (A : (value (limit_price_of SELL dex slippage) <= value (fix_ dex))%Q).
  { unfold limit_price_of. cbn [decide]. 
    destruct (decide (SELL = BUY)) as [|_]; [discriminate|].
    apply DecFacts.fix_mono. rewrite DecFacts.value_mul_exact. nra. }
  assert (B : (value (fix_ dex) <= value (limit_price_of BUY dex slippage))%Q).
  { unfold limit_price_of.
    destruct (decide (BUY = BUY)) as [_|]; [|contradiction].
    apply DecFacts.fix_mono. rewrite DecFacts.value_mul_exact. nra. }
  split; [exact A|]. split; [exact B|].
  intros Hd. rewrite (DecBounds.fix_small dex Hd) in A, B. now split.
Qed.

(** The shipped 1% around the quote 0.00032. *)
Lemma limit_prices_enclose_quote_witness :
  (value (limit_price_of SELL (mkDecimal 32 (-5)) (mkDecimal 1 (-2)))
     <= value (mkDecimal 32 (-5)))%Q /\
  (value (mkDecimal 32 (-5))
     <= value (limit_price_of BUY (mkDecimal 32 (-5)) (mkDecimal 1 (-2))))%Q.
Proof.
  refine (proj2 (proj2 (limit_prices_enclose_quote
                          (mkDecimal 32 (-5)) (mkDecimal 1 (-2)) _ _)) _).
  - vm_compute. discriminate.
  - vm_compute. discriminate.
  - vm_compute. discriminate.
Defined.

(** ** The polling loop *)

(** X11.  The polling loop has no bound of its own.  While every reply is
    a pending one (status -1, 0 or 2) [poll_transaction] does not return:
    after n such replies it has slept n times, has sent query n + 1 and is
    waiting for its answer, with the strategy object unchanged. *)
Theorem poll_transaction_polls_while_pending
    (chain network : string) (tx_hash : jval) (w : World) :
  Forall (fun r => reply_pending r = true) (replies w) ->
  poll_transaction chain network tx_hash w =
  (Blocked,
   mkWorld (self w) (gateway_connections_conf w) []
     (effects w ++ Info "Starting poll_transaction..." ::
        polling_so_far chain network tx_hash (task_cooldown (self w))
                       (replies w))
     (scheduled w)) /\
  length (filter is_status_query
            (polling_so_far chain network tx_hash (task_cooldown (self w))
                            (replies w))) = S (length (replies w)) /\
  length (filter is_sleep
            (polling_so_far chain network tx_hash (task_cooldown (self w))
                            (replies w))) = length (replies w).
Proof.
  intros Hp. split; [|split].
  - unfold poll_transaction, mbind, Coro_bind, info, emit, get_world.
    cbn -[poll_loop].
    erewrite PendingFacts.poll_loop_waits; [|reflexivity|exact Hp|cbn; lia].
    cbn. now rewrite <- app_assoc.
  - apply PendingFacts.polling_so_far_queries.
  - apply PendingFacts.polling_so_far_sleeps.
Qed.

(** Three pending answers in a row. *)
Lemma poll_transaction_polls_while_pending_witness :
  (poll_transaction "ethereum" "mainnet" (JStr "0xabc")
     (world_with_replies [status_reply 0; status_reply 2; status_reply (-1)])).1
  = Blocked.
Proof.
  assert (H : Forall (fun r => reply_pending r = true)
                [status_reply 0; status_reply 2; status_reply (-1)])
    by (repeat constructor).
  exact (f_equal fst
           (proj1 (poll_transaction_polls_while_pending
                     "ethereum" "mainnet" (JStr "0xabc")
                     (world_with_replies
                        [status_reply 0; status_reply 2; status_reply (-1)])
                     H))).
Defined.

(** ** Executing a trade *)

(** X12.  Once the gateway has accepted the submission and returned a
    transaction hash, [execute_trade] does the same whatever the polling
    ends on: it polls that hash through the pending replies up to the
    first reply that is not pending (confirmed, an unknown status or a
    failed call), asks for the balances, and logs "Trade execution
    completed."; only a failing balance request stands in its way, and is
    logged as an error of the trade.  It returns normally and leaves the
    strategy object alone. *)
Theorem execute_trade_after_submission
    (params : TradeParams) (side : TradeType) (limit_price : Decimal)
    (w : World) (r : reply) (pendings : list reply) (final bal : reply)
    (rest : list reply) (tx_hash : jval) :
  replies w = r :: pendings ++ final :: bal :: rest ->
  tx_hash_of r = inr tx_hash ->
  Forall (fun r => reply_pending r = true) pendings ->
  reply_pending final = false ->
  execute_trade params side limit_price w =
  (Done tt,
   advanced rest
     ([Info "Executing trade";
       Request (trade_request (self w) params side limit_price);
       Info "Trade submitted.";
       Info "Starting poll_transaction..."] ++
      polling_effects (chain params) (network params) tx_hash
                      (task_cooldown (self w)) pendings final ++
      [Info "Fetching balances"; Request (balance_request params)] ++
      match balances_of bal with
      | inr _ => [Info "Balances"; Info "Trade execution completed."]
      | inl e => [Error "Error executing trade" e]
      end) w).
Proof.
  intros Hr Hh Hp Hf.
  destruct r as [data|msg]; [|discriminate]. cbn in Hh.
  destruct (data !! "txHash") as [h|] eqn:Hdata; [|discriminate].
  injection Hh as ->.
  unfold execute_trade, execute_trade_body, try_except.
  unfold mbind at 1, Coro_bind at 1, info at 1, emit at 1. cbv iota beta.
  unfold mbind at 1, Coro_bind at 1, get_self at 1. cbv iota beta.
  unfold mbind at 1, Coro_bind at 1, await at 1.
  cbn [replies self effects gateway_connections_conf scheduled].
  rewrite Hr. cbv iota beta.
  unfold mbind at 1, Coro_bind at 1, getitem at 1. rewrite Hdata.
  cbn [mret Coro_ret]. cbv iota beta.
  unfold mbind at 1, Coro_bind at 1, info at 1, emit at 1. cbv iota beta.
  cbn [replies self effects gateway_connections_conf scheduled].
  unfold mbind at 1, Coro_bind at 1.
  erewrite (PollFacts.poll_transaction_run _ _ _ _ pendings final (bal :: rest));
    [|reflexivity|exact Hp|exact Hf].
  cbv iota beta. cbn [replies self effects gateway_connections_conf scheduled].
  unfold mbind at 1, Coro_bind at 1.
  erewrite TradeFacts.get_balance_run; [|reflexivity].
  unfold advanced, balance_effects, trade_request, info, error, emit.
  cbn [replies self effects gateway_connections_conf scheduled].
  destruct (balances_of bal); cbn; now rewrite <- !app_assoc.
Qed.

(** The trade of scenario A with one pending reply and a status the script
    does not know. *)
Lemma execute_trade_after_submission_witness :
  effects
    (execute_trade
       (mkTradeParams "ethereum" "mainnet" "balancer" "WETH" "DAI"
                      (Some "0xW"))
       SELL (mkDecimal 3168 (-7))
       (world_with_replies
          [Returns {["txHash" := JStr "0xabc"]}; status_reply 2;
           status_reply 3; Returns {["balances" := JNull]}])).2
  = [Info "Executing trade";
     Request (amm_trade "ethereum" "mainnet" "balancer" (Some "0xW") "WETH"
                        "DAI" SELL (mkDecimal 1 0) (mkDecimal 3168 (-7)));
     Info "Trade submitted.";
     Info "Starting poll_transaction...";
     Info "Polling transaction status";
     Request (get_transaction_status "ethereum" "mainnet" (JStr "0xabc"));
     Info "Trade is pending confirmation";
     Sleep 2;
     Info "Polling transaction status";
     Request (get_transaction_status "ethereum" "mainnet" (JStr "0xabc"));
     Info "Unknown txStatus";
     Info "poll_data";
     Info "Fetching balances";
     Request (get_balances "ethereum" "mainnet" (Some "0xW") ["WETH"; "DAI"]);
     Info "Balances";
     Info "Trade execution completed."].
Proof.
  assert (H : Forall (fun r => reply_pending r = true) [status_reply 2])
    by (repeat constructor).
  exact (f_equal (fun x => effects x.2)
           (execute_trade_after_submission
              (mkTradeParams "ethereum" "mainnet" "balancer" "WETH" "DAI"
                             (Some "0xW"))
              SELL (mkDecimal 3168 (-7))
              (world_with_replies
                 [Returns {["txHash" := JStr "0xabc"]}; status_reply 2;
                  status_reply 3; Returns {["balances" := JNull]}])
              (Returns {["txHash" := JStr "0xabc"]}) [status_reply 2]
              (status_reply 3) (Returns {["balances" := JNull]}) []
              (JStr "0xabc") eq_refl eq_refl H eq_refl)).
Defined.

(** X14.  When the submission fails (the gateway call raises, or its reply
    has no "txHash"), [execute_trade] logs the error as "Error executing
    trade" and returns normally: no status query, no balance request and no
    completion line follow, and one reply is used up. *)
Theorem execute_trade_rejected_submission
    (params : TradeParams) (side : TradeType) (limit_price : Decimal)
    (w : World) (r : reply) (rest : list reply) (e : exn) :
  replies w = r :: rest ->
  tx_hash_of r = inl e ->
  execute_trade params side limit_price w =
  (Done tt,
   advanced rest
     [Info "Executing trade";
      Request (trade_request (self w) params side limit_price);
      Error "Error executing trade" e] w).
Proof.
  intros Hr He.
  unfold execute_trade, execute_trade_body, try_except, mbind, Coro_bind,
    info, error, emit, await, get_self, getitem.
  cbn. rewrite Hr. unfold advanced, trade_request.
  destruct r as [data|msg]; cbn in *.
  - destruct (data !! "txHash"); [discriminate|]. injection He as <-.
    cbn. now rewrite <- !app_assoc.
  - injection He as <-. now rewrite <- !app_assoc.
Qed.

(** The gateway refuses the trade. *)
Lemma execute_trade_rejected_submission_witness :
  execute_trade
    (mkTradeParams "ethereum" "mainnet" "balancer" "WETH" "DAI" (Some "0xW"))
    SELL (mkDecimal 3168 (-7)) (world_with_replies [Raises "insufficient funds"])
  = (Done tt,
     mkWorld (new 2) [] []
       [Info "Executing trade";
        Request (amm_trade "ethereum" "mainnet" "balancer" (Some "0xW") "WETH"
                           "DAI" SELL (mkDecimal 1 0) (mkDecimal 3168 (-7)));
        Error "Error executing trade" (GatewayError "insufficient funds")] O).
Proof.
  exact (execute_trade_rejected_submission
           (mkTradeParams "ethereum" "mainnet" "balancer" "WETH" "DAI"
                          (Some "0xW"))
           SELL (mkDecimal 3168 (-7))
           (world_with_replies [Raises "insufficient funds"])
           (Raises "insufficient funds") [] (GatewayError "insufficient funds")
           eq_refl eq_refl).
Defined.

(** X13.  When a trade direction was found and a wallet address too, but
    the balance request before the trade fails (the call raises or its
    reply has no "balances"), [determine_and_execute_trade] raises that
    exception right after the request: no limit price is computed and no
    trade is submitted. *)
Theorem pre_trade_balance_failure_stops_trade
    (params : TradeParams) (w w1 w2 : World) (side : TradeType) (a : string)
    (r : reply) (rest : list reply) (e : exn) :
  calculate_trade_direction w = (Done (Some side), w1) ->
  get_wallet_address (chain params) (network params) (connector params)
                     (info "Profitable trade detected" w1).2
    = (Done (Some a), w2) ->
  a <> EmptyString ->
  replies w2 = r :: rest ->
  balances_of r = inl e ->
  determine_and_execute_trade params w =
  (Raised e,
   advanced rest
     [Info "Fetching balances";
      Request (balance_request (with_address params (Some a)))] w2).
Proof.
  intros Hdir Hwallet Ha Hr He.
  unfold determine_and_execute_trade.
  unfold mbind at 1, Coro_bind at 1. rewrite Hdir. cbv iota beta.
  unfold mbind at 1, Coro_bind at 1.
  destruct (info "Profitable trade detected" w1) as [[[]| |] w1'] eqn:Hinfo;
    try discriminate.
  cbn [snd] in Hwallet. unfold mbind at 1, Coro_bind at 1.
  rewrite Hwallet. cbv iota beta zeta.
  cbn [falsy address with_address]. rewrite bool_decide_eq_false_2 by exact Ha.
  unfold mbind at 1, Coro_bind at 1.
  rewrite (TradeFacts.get_balance_run _ w2 r rest Hr), He.
  unfold balance_effects. now rewrite He.
Qed.

(** Scenario A with a wallet configured and a gateway that times out on
    the balance request. *)
Lemma pre_trade_balance_failure_stops_trade_witness :
  (determine_and_execute_trade
     (mkTradeParams "ethereum" "mainnet" "balancer" "WETH" "DAI" None)
     (mkWorld (strategy_with (mkDecimal 2947 (-7)) (mkDecimal 32 (-5))
                             (mkDecimal 5 (-4)))
              [wallet_entry "ethereum" "balancer" "mainnet" "0xW"]
              [Raises "timeout"] [] O)).1
  = Raised (GatewayError "timeout").
Proof.
  refine (f_equal fst
            (pre_trade_balance_failure_stops_trade
               (mkTradeParams "ethereum" "mainnet" "balancer" "WETH" "DAI" None)
               (mkWorld (strategy_with (mkDecimal 2947 (-7)) (mkDecimal 32 (-5))
                                       (mkDecimal 5 (-4)))
                        [wallet_entry "ethereum" "balancer" "mainnet" "0xW"]
                        [Raises "timeout"] [] O)
               (calculate_trade_direction
                  (mkWorld (strategy_with (mkDecimal 2947 (-7))
                              (mkDecimal 32 (-5)) (mkDecimal 5 (-4)))
                           [wallet_entry "ethereum" "balancer" "mainnet" "0xW"]
                           [Raises "timeout"] [] O)).2
               (mkWorld (strategy_with (mkDecimal 2947 (-7)) (mkDecimal 32 (-5))
                                       (mkDecimal 5 (-4)))
                        [wallet_entry "ethereum" "balancer" "mainnet" "0xW"]
                        [Raises "timeout"]
                        [Info "Price Deviation";
                         Info "Deviation ensures minimum profitibilitty...";
                         Info "Deviation is positive, executing BUY WETH-DAI order.";
                         Info "Profitable trade detected"] O)
               SELL "0xW" (Raises "timeout") [] (GatewayError "timeout")
               _ _ _ _ _)).
  - vm_compute. reflexivity.
  - vm_compute. reflexivity.
  - discriminate.
  - reflexivity.
  - reflexivity.
Defined.

(** X15.  One run of [arbitrage_task] submits at most one trade, and so
    does each of [determine_and_execute_trade] and [execute_trade]. *)
Theorem arbitrage_task_submits_at_most_one_trade
    (params : TradeParams) (side : TradeType) (limit_price : Decimal) :
  submits_at_most 1 arbitrage_task /\
  submits_at_most 1 (determine_and_execute_trade params) /\
  submits_at_most 1 (execute_trade params side limit_price).
Proof.
  split; [apply TradeFacts.arbitrage_task_submits_once|].
  split; [apply TradeFacts.determine_and_execute_trade_submits_once|].
  apply TradeFacts.execute_trade_submits_once.
Qed.

(** ** Trades over a whole run *)

(** X16.  Over any run of ticks and task runs from the constructed
    strategy, with any wallet settings and any replies of the gateway, the
    trades submitted are at most as many as the task runs: ticks submit
    nothing, and no task submits twice. *)
Theorem trades_bounded_by_task_runs
    (cd : Z) (conf : list (gmap string string)) (rs : list reply)
    (evs : list event) :
  (submissions (effects (run (boot cd conf rs) evs)) <= task_runs evs)%nat.
Proof.
  pose proof (RunFacts.run_submissions evs (boot cd conf rs)) as H.
  cbn in H. exact H.
Qed.

(** ** From the quote to the trade *)

(** X17.  A task decides its trade on the quote it has fetched itself.
    With a reply that carries a price the task goes on from the store of
    that price; and from there, whatever state the strategy object is in
    when the reply arrives, every trade the task submits is for the venue
    and the pair of its parameters, for [order_amount], from a non-empty
    wallet address, and on the side that the deviation of that price from
    the oracle price calls for. *)
Theorem trade_follows_quote_of_same_cycle
    (w : World) (base quote connector chain network : string)
    (r : reply) (rest : list reply) (d : Decimal) :
  split (Ascii.ascii_of_nat 45) (trading_pair (self w)) = [base; quote] ->
  split (Ascii.ascii_of_nat 95) (connector_chain_network (self w))
    = [connector; chain; network] ->
  replies w = r :: rest ->
  quote_of r = inr d ->
  arbitrage_task w =
    arbitrage_task_resumed
      (mkTradeParams chain network connector base quote None) d
      (requested (quote_request (self w) base quote connector chain network)
                 rest w) /\
  forall w',
    exists delta,
      effects (arbitrage_task_resumed
                 (mkTradeParams chain network connector base quote None)
                 d w').2
        = effects w' ++ Info "DEX Price" :: delta /\
      Forall (trade_decided_by (set_dex_price d (self w'))
                               base quote connector chain network) delta.
Proof.
  intros Hpair Hccn Hr Hq. split.
  - exact (ResumeFacts.arbitrage_task_resumes
             w base quote connector chain network Hpair Hccn r rest d Hr Hq).
  - intros w'.
    apply (ResumeFacts.arbitrage_task_resumed_adds (set_dex_price d (self w')));
      try (intros; exact Logic.I); [|reflexivity].
    intros deviation side a Hdev Hdir Ha.
    split; [now repeat split|]. split; [reflexivity|].
    split; [exact Ha|]. eauto.
Qed.

(** Scenario A run to the end: oracle price 0.0002947, quote 0.00032, a
    wallet configured, the trade confirmed at the first poll. *)
Lemma trade_follows_quote_of_same_cycle_witness :
  arbitrage_task
    (mkWorld (strategy_with (mkDecimal 2947 (-7)) (of_int 0)
                            (mkDecimal 5 (-4)))
             [wallet_entry "ethereum" "balancer" "mainnet" "0xW"]
             [price_reply (mkDecimal 32 (-5));
              Returns {["balances" := JNull]};
              Returns {["txHash" := JStr "0xabc"]};
              status_reply 1;
              Returns {["balances" := JNull]}] [] O)
  = arbitrage_task_resumed
      (mkTradeParams "ethereum" "mainnet" "balancer" "WETH" "DAI" None)
      (mkDecimal 32 (-5))
      (mkWorld (strategy_with (mkDecimal 2947 (-7)) (of_int 0)
                              (mkDecimal 5 (-4)))
               [wallet_entry "ethereum" "balancer" "mainnet" "0xW"]
               [Returns {["balances" := JNull]};
                Returns {["txHash" := JStr "0xabc"]};
                status_reply 1;
                Returns {["balances" := JNull]}]
               [Request (get_price "ethereum" "mainnet" "balancer" "WETH"
                                   "DAI" (mkDecimal 1 0) BUY)] O).
Proof.
  exact (proj1 (trade_follows_quote_of_same_cycle
           (mkWorld (strategy_with (mkDecimal 2947 (-7)) (of_int 0)
                                   (mkDecimal 5 (-4)))
                    [wallet_entry "ethereum" "balancer" "mainnet" "0xW"]
                    [price_reply (mkDecimal 32 (-5));
                     Returns {["balances" := JNull]};
                     Returns {["txHash" := JStr "0xabc"]};
                     status_reply 1;
                     Returns {["balances" := JNull]}] [] O)
           "WETH" "DAI" "balancer" "ethereum" "mainnet"
           (price_reply (mkDecimal 32 (-5))) _ (mkDecimal 32 (-5))
           eq_refl eq_refl eq_refl eq_refl)).
Defined.
